(** * A shallow embedding of [korad_api.py] (the [Korad] session class)

    Bytes and Python [str] values are lists of integers (byte values and
    code points).  The session is a state-and-exception monad over the
    transport ("world"): as in Python, effects performed before an
    exception is raised are kept. *)

From Stdlib Require Import ZArith QArith Qabs List String Ascii Bool Lia.
Import ListNotations.
Open Scope Z_scope.

(** ** Bytes and strings *)

(** Python byte strings and [str] values: byte values / code points. *)
Definition bytes := list Z.
Definition pystr := list Z.

(** ASCII literals, as [b'...'] and ['...'] in the source. *)
Definition lit (s : string) : list Z :=
  map (fun c => Z.of_nat (nat_of_ascii c)) (list_ascii_of_string s).

Fixpoint zlist_eqb (a b : list Z) : bool :=
  match a, b with
  | [], [] => true
  | x :: a', y :: b' => (x =? y) && zlist_eqb a' b'
  | _, _ => false
  end.

(** [bytes.rstrip()]: strips trailing ASCII whitespace
    (space, \t, \n, \r, \x0b, \x0c). *)
Definition is_ascii_ws (c : Z) : bool :=
  (c =? 32) || (c =? 9) || (c =? 10) || (c =? 13) || (c =? 11) || (c =? 12).

Fixpoint lstrip_ws (s : list Z) : list Z :=
  match s with
  | c :: t => if is_ascii_ws c then lstrip_ws t else s
  | [] => []
  end.

Definition rstrip (s : bytes) : bytes := rev (lstrip_ws (rev s)).

Definition in_range (lo hi c : Z) : bool := (lo <=? c) && (c <=? hi).

(** [bytes.decode('utf-8')] (strict): well-formed UTF-8 only, no
    overlong forms, no surrogates; [None] is [UnicodeDecodeError]. *)
Fixpoint utf8_decode_fuel (fuel : nat) (s : bytes) : option pystr :=
  match fuel with
  | O => match s with [] => Some [] | _ => None end
  | S f =>
    match s with
    | [] => Some []
    | b0 :: t =>
      if b0 <? 128 then option_map (cons b0) (utf8_decode_fuel f t)
      else if in_range 194 223 b0 then
        match t with
        | b1 :: t' =>
          if in_range 128 191 b1 then
            option_map (cons (Z.lor (Z.shiftl (Z.land b0 31) 6) (Z.land b1 63)))
                       (utf8_decode_fuel f t')
          else None
        | [] => None
        end
      else if in_range 224 239 b0 then
        let lo1 := if b0 =? 224 then 160 else 128 in
        let hi1 := if b0 =? 237 then 159 else 191 in
        match t with
        | b1 :: b2 :: t' =>
          if in_range lo1 hi1 b1 && in_range 128 191 b2 then
            option_map
              (cons (Z.lor (Z.shiftl (Z.land b0 15) 12)
                     (Z.lor (Z.shiftl (Z.land b1 63) 6) (Z.land b2 63))))
              (utf8_decode_fuel f t')
          else None
        | _ => None
        end
      else if in_range 240 244 b0 then
        let lo1 := if b0 =? 240 then 144 else 128 in
        let hi1 := if b0 =? 244 then 143 else 191 in
        match t with
        | b1 :: b2 :: b3 :: t' =>
          if in_range lo1 hi1 b1 && in_range 128 191 b2 && in_range 128 191 b3 then
            option_map
              (cons (Z.lor (Z.shiftl (Z.land b0 7) 18)
                     (Z.lor (Z.shiftl (Z.land b1 63) 12)
                      (Z.lor (Z.shiftl (Z.land b2 63) 6) (Z.land b3 63)))))
              (utf8_decode_fuel f t')
          else None
        | _ => None
        end
      else None
    end
  end.

Definition utf8_decode (s : bytes) : option pystr := utf8_decode_fuel (List.length s) s.

(** [str.encode('utf-8')]. *)
Definition utf8_encode_char (c : Z) : bytes :=
  if c <? 128 then [c]
  else if c <? 2048 then [Z.lor 192 (Z.shiftr c 6); Z.lor 128 (Z.land c 63)]
  else if c <? 65536 then
    [Z.lor 224 (Z.shiftr c 12); Z.lor 128 (Z.land (Z.shiftr c 6) 63);
     Z.lor 128 (Z.land c 63)]
  else
    [Z.lor 240 (Z.shiftr c 18); Z.lor 128 (Z.land (Z.shiftr c 12) 63);
     Z.lor 128 (Z.land (Z.shiftr c 6) 63); Z.lor 128 (Z.land c 63)].

Definition utf8_encode (s : pystr) : bytes := flat_map utf8_encode_char s.

(** [str(n)] for a Python [int]. *)
Fixpoint dec_digits (fuel : nat) (n : Z) (acc : list Z) : list Z :=
  match fuel with
  | O => acc
  | S f =>
    let acc' := (48 + n mod 10) :: acc in
    if n <? 10 then acc' else dec_digits f (n / 10) acc'
  end.

Definition str_int (n : Z) : pystr :=
  let a := dec_digits (S (Z.to_nat (Z.log2 (Z.abs n)))) (Z.abs n) [] in
  if n <? 0 then 45 :: a else a.

(** ** The model-number pattern (lines 42-44)

    [KORAD_MODEL_REGEX = re.compile(r'.*k(?P<panel>a|d)(?P<max_voltage>\d)
    (?P<channels>\d)(?P<max_current>\d+)p.*', re.I)], used with [match]
    (anchored at the start), run by Python's backtracking engine: the
    leading greedy [.*] (which does not cross a newline) is tried longest
    first, the greedy [\d+] likewise.  Under [re.I] the letter [k] also
    matches the Kelvin sign U+212A.  On a [str] pattern [\d] is any
    Unicode decimal digit (category Nd). *)

(** The Unicode decimal digits (Unicode 14.0, as in CPython 3.11): 66
    runs of ten consecutive code points, each starting at its digit zero;
    the list holds the first code point of each run. *)
Definition ND_ZEROS : list Z :=
  [48; 1632; 1776; 1984; 2406; 2534; 2662; 2790; 2918; 3046; 3174; 3302;
   3430; 3558; 3664; 3792; 3872; 4160; 4240; 6112; 6160; 6470; 6608; 6784;
   6800; 6992; 7088; 7232; 7248; 42528; 43216; 43264; 43472; 43504; 43600;
   44016; 65296; 66720; 68912; 69734; 69872; 69942; 70096; 70384; 70736;
   70864; 71248; 71360; 71472; 71904; 72016; 72784; 73040; 73120; 92768;
   92864; 93008; 120782; 120792; 120802; 120812; 120822; 123200; 123632;
   125264; 130032].

Fixpoint digit_in (zeros : list Z) (c : Z) : option Z :=
  match zeros with
  | [] => None
  | z :: t => if in_range z (z + 9) c then Some (c - z) else digit_in t c
  end.

(** [Py_UNICODE_TODECIMAL]: the value of a decimal digit. *)
Definition decimal_value (c : Z) : option Z := digit_in ND_ZEROS c.

(** [\d] and [Py_UNICODE_ISDECIMAL]. *)
Definition is_digit (c : Z) : bool :=
  match decimal_value c with Some _ => true | None => false end.
Definition ci_k (c : Z) : bool := (c =? 107) || (c =? 75) || (c =? 8490).
Definition ci_a (c : Z) : bool := (c =? 97) || (c =? 65).
Definition ci_d (c : Z) : bool := (c =? 100) || (c =? 68).
Definition ci_p (c : Z) : bool := (c =? 112) || (c =? 80).

(** [groupdict()] of a successful match. *)
Record groups := {
  g_panel : pystr;
  g_max_voltage : pystr;
  g_channels : pystr;
  g_max_current : pystr
}.

Fixpoint digit_run (s : pystr) : nat :=
  match s with
  | c :: t => if is_digit c then S (digit_run t) else O
  | [] => O
  end.

Fixpoint dot_run (s : pystr) : nat :=
  match s with
  | c :: t => if c =? 10 then O else S (dot_run t)
  | [] => O
  end.

(** [(?P<max_current>\d+)p.*]: [\d+] takes [n] digits, [n] from the
    longest run down to 1, and [p] must follow; the final [.*] always
    matches. *)
Fixpoint try_plus (n : nat) (rest : pystr) : option pystr :=
  match n with
  | O => None
  | S n' =>
    match nth_error rest n with
    | Some c => if ci_p c then Some (firstn n rest) else try_plus n' rest
    | None => try_plus n' rest
    end
  end.

(** The part of the pattern after the leading [.*]. *)
Definition match_body (t : pystr) : option groups :=
  match t with
  | k :: pa :: v :: c :: rest =>
    if ci_k k && (ci_a pa || ci_d pa) && is_digit v && is_digit c then
      option_map
        (fun cur => {| g_panel := [pa]; g_max_voltage := [v];
                       g_channels := [c]; g_max_current := cur |})
        (try_plus (digit_run rest) rest)
    else None
  | _ => None
  end.

(** The leading [.*] consumes [n] characters, [n] from the longest
    newline-free prefix down to 0. *)
Fixpoint try_from (n : nat) (s : pystr) : option groups :=
  match match_body (skipn n s) with
  | Some g => Some g
  | None => match n with O => None | S n' => try_from n' s end
  end.

Definition KORAD_MODEL_REGEX_match (s : pystr) : option groups :=
  try_from (dot_run s) s.

(** The value of a string of decimal digits, most significant first. *)
Definition digit_val (c : Z) : Z :=
  match decimal_value c with Some d => d | None => 0 end.

Fixpoint digits_value (acc : Z) (s : pystr) : Z :=
  match s with
  | [] => acc
  | c :: t => digits_value (acc * 10 + digit_val c) t
  end.

(** CPython's limit on the digits [int()] converts from a decimal string
    ([sys.get_int_max_str_digits()], 4300 by default since 3.11): a longer
    string raises [ValueError]. *)
Definition INT_MAX_STR_DIGITS : nat := 4300.

(** [int(s)] on the strings of decimal digits the pattern captures: any
    Unicode decimal digits, at most [INT_MAX_STR_DIGITS] of them. *)
Definition py_int (s : pystr) : option Z :=
  match s with
  | [] => None
  | _ =>
    if forallb is_digit s then
      if (List.length s <=? INT_MAX_STR_DIGITS)%nat then Some (digits_value 0 s) else None
    else None
  end.

(** ** Python numbers

    The set-point arguments are Python [int] or [float] values; floats are
    modelled by their exact rational value (IEEE rounding is not modelled).
    Python compares an [int] with a [float] exactly, as [Q] does. *)
Inductive pynum := PInt (z : Z) | PFloat (q : Q).

Definition num_val (v : pynum) : Q :=
  match v with PInt z => inject_Z z | PFloat q => q end.

Definition Qlt_bool (x y : Q) : bool := negb (Qle_bool y x).

(** The result of [float(s)]. *)
Inductive pyfloat := FFin (q : Q) | FInf (neg : bool) | FNaN.

(** [Py_UNICODE_ISSPACE]: Unicode whitespace. *)
Definition py_isspace (c : Z) : bool :=
  in_range 9 13 c || in_range 28 32 c || (c =? 133) || (c =? 160)
  || (c =? 5760) || in_range 8192 8202 c || (c =? 8232) || (c =? 8233)
  || (c =? 8239) || (c =? 8287) || (c =? 12288).

(** [Py_ISSPACE]: ASCII whitespace (space, \t, \n, \v, \f, \r). *)
Definition ascii_isspace (c : Z) : bool := in_range 9 13 c || (c =? 32).

Definition ascii_digit (c : Z) : bool := in_range 48 57 c.

(** [_PyUnicode_TransformDecimalAndSpaceToASCII]: an ASCII string is kept;
    otherwise characters below 127 are kept, Unicode whitespace becomes a
    space, a decimal digit its ASCII digit, and the first other character
    becomes ['?'], which ends the string. *)
Fixpoint transform_chars (s : pystr) : pystr :=
  match s with
  | [] => []
  | c :: t =>
    if c <? 127 then c :: transform_chars t
    else if py_isspace c then 32 :: transform_chars t
    else match decimal_value c with
         | Some d => (48 + d) :: transform_chars t
         | None => [63]
         end
  end.

Definition transform_to_ascii (s : pystr) : pystr :=
  if forallb (fun c => c <? 128) s then s else transform_chars s.

(** The copy loop of [_Py_string_to_number_with_underscores] ([prev] is
    the previous character, initially NUL): an underscore must follow a
    digit and precede one, and must not end the string; the loop stops at
    an embedded NUL, which is an error. *)
Fixpoint remove_underscores (prev : Z) (s : pystr) : option pystr :=
  match s with
  | [] => if prev =? 95 then None else Some []
  | c :: t =>
    if c =? 0 then None
    else if c =? 95 then
      if ascii_digit prev then remove_underscores c t else None
    else if (prev =? 95) && negb (ascii_digit c) then None
    else option_map (cons c) (remove_underscores c t)
  end.

Fixpoint lstrip_by (f : Z -> bool) (s : pystr) : pystr :=
  match s with
  | c :: t => if f c then lstrip_by f t else s
  | [] => []
  end.

Fixpoint span_digits (s : pystr) : pystr * pystr :=
  match s with
  | c :: t =>
    if ascii_digit c then let (d, r) := span_digits t in (c :: d, r) else ([], s)
  | [] => ([], [])
  end.

Definition parse_sign (s : pystr) : bool * pystr :=
  match s with
  | c :: t => if c =? 45 then (true, t) else if c =? 43 then (false, t) else (false, s)
  | [] => (false, [])
  end.

Definition ascii_lower (c : Z) : Z := if in_range 65 90 c then c + 32 else c.

(** [m * 10^e] as an exact rational. *)
Definition scale10 (m e : Z) : Q :=
  if 0 <=? e then inject_Z (m * 10 ^ e) else m # Z.to_pos (10 ^ (- e)).

(** The exponent [_Py_dg_strtod] uses: more than 9 significant digits,
    or a value above [MAX_ABS_EXP], count as [MAX_ABS_EXP]. *)
Definition MAX_ABS_EXP : Z := 1100000000.

Definition clip_exp (ed : pystr) : Z :=
  let sig := lstrip_by (Z.eqb 48) ed in
  if (9 <? Z.of_nat (List.length sig)) || (MAX_ABS_EXP <? digits_value 0 sig)
  then MAX_ABS_EXP else digits_value 0 sig.

(** [_Py_dg_strtod] required to read the whole string: optional sign,
    digits with an optional point (at least one digit), optional exponent
    with at least one digit.  The exact value of the literal. *)
Definition dg_strtod (s0 : pystr) : option Q :=
  let (neg, s) := parse_sign s0 in
  let (ip, r1) := span_digits s in
  let (fp, r2) := match r1 with
                  | c :: t => if c =? 46 then span_digits t else ([], r1)
                  | [] => ([], [])
                  end in
  match ip ++ fp with
  | [] => None
  | _ =>
    let exp := match r2 with
               | [] => Some 0
               | e :: t =>
                 if (e =? 101) || (e =? 69) then
                   let (eneg, t') := parse_sign t in
                   let (ed, r3) := span_digits t' in
                   match ed, r3 with
                   | _ :: _, [] => Some (if eneg then - clip_exp ed else clip_exp ed)
                   | _, _ => None
                   end
                 else None
               end in
    match exp with
    | None => None
    | Some e =>
      let q := scale10 (digits_value 0 (ip ++ fp)) (e - Z.of_nat (List.length fp)) in
      Some (if neg then Qopp q else q)
    end
  end.

(** [_Py_parse_inf_or_nan] required to read the whole string. *)
Definition parse_inf_or_nan (s0 : pystr) : option pyfloat :=
  let (neg, s) := parse_sign s0 in
  let low := map ascii_lower s in
  if zlist_eqb low (lit "inf") || zlist_eqb low (lit "infinity") then Some (FInf neg)
  else if zlist_eqb low (lit "nan") then Some FNaN
  else None.

(** The least magnitude a literal needs to round to infinity:
    [2^1024 - 2^970], half an ulp above the largest double (ties go to
    the even neighbour, here [2^1024]). *)
Definition DBL_OVERFLOW : Q := inject_Z (2 ^ 1024 - 2 ^ 970).

(** [float_from_string_inner] and [PyOS_string_to_double]: strip ASCII
    whitespace at both ends, then the whole rest must be a decimal literal
    or an infinity or NaN spelling.  A decimal literal whose magnitude
    rounds past the largest double gives an infinity; other results are
    kept exact (rounding to a double is not modelled). *)
Definition float_inner (s : pystr) : option pyfloat :=
  let t := rev (lstrip_by ascii_isspace (rev (lstrip_by ascii_isspace s))) in
  match dg_strtod t with
  | Some q => Some (if Qle_bool DBL_OVERFLOW (Qabs q) then FInf (Qlt_bool q 0) else FFin q)
  | None => parse_inf_or_nan t
  end.

(** [float(s)] on a [str] ([PyFloat_FromString]); [None] is the
    [ValueError] Python raises. *)
Definition py_float (s0 : pystr) : option pyfloat :=
  let s := transform_to_ascii s0 in
  if existsb (Z.eqb 95) s then
    match remove_underscores 0 s with
    | Some s' => float_inner s'
    | None => None
    end
  else float_inner s.

(** ** Exceptions, transport and the session monad *)

(** The Python exceptions the code can raise: [ValueError] from [float]
    and [int], [TypeError] from [ord] and [%]-formatting, [AttributeError]
    from [None.groupdict()], [UnicodeDecodeError] from [decode], and
    pyserial's [SerialException] (port absent or not open). *)
Inductive exn :=
  ValueError | TypeError | AttributeError | UnicodeDecodeError | SerialException.

(** What happens on the serial line, in order. *)
Inductive event :=
| EOpen (t : Q)        (* serial_for_url(..., timeout=t) *)
| EWrite (b : bytes)   (* _port.write(b) *)
| ESleep (t : Q)       (* time.sleep(t) *)
| ERead (b : bytes)    (* _port.readline() returned b *)
| EClose               (* the port actually closed *)
| EAtexit.             (* atexit.register(self.close) *)

(** The transport: [rx] holds the successive results the device makes
    [readline] return; once it is exhausted the device stays silent and
    [readline] returns [b''] after the read timeout, as pyserial does. *)
Record world := {
  dev_present : bool;
  port_open : bool;
  port_timeout : Q;
  rx : list bytes;
  log : list event
}.

Definition set_log (w : world) (l : list event) : world :=
  {| dev_present := dev_present w; port_open := port_open w;
     port_timeout := port_timeout w; rx := rx w; log := l |}.

Definition emit (w : world) (e : event) : world := set_log w (log w ++ [e]).

Definition M (A : Type) : Type := world -> (exn + A) * world.

Definition ret {A} (a : A) : M A := fun w => (inr a, w).
Definition raise {A} (e : exn) : M A := fun w => (inl e, w).
Definition bind {A B} (m : M A) (f : A -> M B) : M B :=
  fun w => match m w with
           | (inl e, w') => (inl e, w')
           | (inr a, w') => f a w'
           end.
Definition lift {A} (r : exn + A) : M A := fun w => (r, w).

Notation "x <- c1 ;; c2" := (bind c1 (fun x => c2))
  (at level 61, c1 at next level, right associativity).
Notation "c1 ;; c2" := (bind c1 (fun _ => c2))
  (at level 61, right associativity).

(** pyserial [serial_for_url(addr, ..., timeout=t)] (and [Serial(addr,
    ..., timeout=t)]): the constructor's [timeout] setter refuses a
    negative value with [ValueError] before any port is opened; then
    [open()] fails with [SerialException] when the device is absent. *)
Definition serial_for_url (t : Q) : M unit := fun w =>
  if Qlt_bool t 0 then (inl ValueError, w)
  else if dev_present w then
    (inr tt, {| dev_present := true; port_open := true; port_timeout := t;
                rx := rx w; log := log w ++ [EOpen t] |})
  else (inl SerialException, w).

(** [_port.write(b)]. *)
Definition port_write (b : bytes) : M unit := fun w =>
  if port_open w then (inr tt, emit w (EWrite b)) else (inl SerialException, w).

(** [_port.readline()]. *)
Definition port_readline : M bytes := fun w =>
  if port_open w then
    match rx w with
    | r :: rest =>
      (inr r, {| dev_present := dev_present w; port_open := true;
                 port_timeout := port_timeout w; rx := rest;
                 log := log w ++ [ERead r] |})
    | [] => (inr [], emit w (ERead []))
    end
  else (inl SerialException, w).

(** [_port.close()]: pyserial closes an open port and does nothing on a
    closed one (the transport contract: close is idempotent). *)
Definition port_close : M unit := fun w =>
  if port_open w then
    (inr tt, {| dev_present := dev_present w; port_open := false;
                port_timeout := port_timeout w; rx := rx w;
                log := log w ++ [EClose] |})
  else (inr tt, w).

(** [time.sleep(t)].  Python raises [ValueError] for a negative [t];
    that case is not modelled, since the only delay slept is a handle's
    [timeout], and the port constructor has already raised [ValueError]
    for a negative one (see [serial_for_url]), so no handle carries it. *)
Definition sleep (t : Q) : M unit := fun w => (inr tt, emit w (ESleep t)).

(** [atexit.register(self.close)]. *)
Definition atexit_register : M unit := fun w => (inr tt, emit w EAtexit).

(** ** The Korad class *)

(** Port configuration and the default timeout (line 26:
    [KORAD_MAX_TIMEOUT = 100e-3]). *)
Definition KORAD_MAX_TIMEOUT : Q := 1 # 10.

(** [ord(s)]: a one-character [str], else [TypeError]. *)
Definition py_ord (s : pystr) : exn + Z :=
  match s with [c] => inr c | _ => inl TypeError end.

Definition lift_opt {A} (e : exn) (o : option A) : M A :=
  match o with Some a => ret a | None => raise e end.

(** The set-point messages of lines 120 and 130 and Python's [%]
    operator on them: a non-tuple right operand is one argument, and the
    number of [%s] specifiers must equal the number of arguments, else
    [TypeError]. *)
Definition VOLTAGE_MSG : pystr :=
  lit "Voltage Too large: %s is greater than max voltage of %s".
Definition CURRENT_MSG : pystr :=
  lit "Current Too large: %s is greater than max current of %s".

Fixpoint count_specs (s : pystr) : nat :=
  match s with
  | 37 :: 115 :: t => S (count_specs t)
  | _ :: t => count_specs t
  | [] => O
  end.

Section Korad.

(** [str(x)] of a Python [float] (its shortest round-trip repr). *)
Variable float_repr : Q -> pystr.

Definition str_num (v : pynum) : pystr :=
  match v with PInt z => str_int z | PFloat q => float_repr q end.

Fixpoint subst_specs (s : pystr) (args : list pynum) : pystr :=
  match s, args with
  | 37 :: 115 :: t, a :: args' => str_num a ++ subst_specs t args'
  | c :: t, _ => c :: subst_specs t args
  | [], _ => []
  end.

Definition percent_format (fmt : pystr) (args : list pynum) : exn + pystr :=
  if Nat.eqb (count_specs fmt) (List.length args) then inr (subst_specs fmt args)
  else inl TypeError.

(** API constants, lines 29-40. *)
Definition KORAD_ID_CMD : bytes := lit "*IDN?".
Definition KORAD_STATUS_CMD : bytes := lit "STATUS?".
Definition KORAD_SAVE_CMD (x : Z) : bytes := utf8_encode (lit "SAV" ++ str_int x).
Definition KORAD_RECALL_CMD (x : Z) : bytes := utf8_encode (lit "RCL" ++ str_int x).
Definition KORAD_OCP_CMD (x : Z) : bytes := utf8_encode (lit "OCP" ++ str_int x).
Definition KORAD_OUTPUT_CMD (x : Z) : bytes := utf8_encode (lit "OUT" ++ str_int x).
Definition KORAD_VSET_CMD (x : Z) (y : pynum) : bytes :=
  utf8_encode (lit "VSET" ++ str_int x ++ lit ":" ++ str_num y).
Definition KORAD_ISET_CMD (x : Z) (y : pynum) : bytes :=
  utf8_encode (lit "ISET" ++ str_int x ++ lit ":" ++ str_num y).
Definition KORAD_VREAD_CMD (x : Z) : bytes := utf8_encode (lit "VSET" ++ str_int x ++ lit "?").
Definition KORAD_IREAD_CMD (x : Z) : bytes := utf8_encode (lit "ISET" ++ str_int x ++ lit "?").
Definition KORAD_VMEAS_CMD (x : Z) : bytes := utf8_encode (lit "VOUT" ++ str_int x ++ lit "?").
Definition KORAD_IMEAS_CMD (x : Z) : bytes := utf8_encode (lit "IOUT" ++ str_int x ++ lit "?").

(** The attributes of a constructed [Korad] object. *)
Record korad := {
  addr : pystr;
  clamp : bool;
  timeout : Q;
  id : pystr;
  channels : Z;
  max_voltage : Z;
  max_current : Z
}.

(** [send_cmd], lines 67-69: [self._port.write(cmd); sleep(self.timeout)]. *)
Definition send_cmd (t : Q) (cmd : bytes) : M unit :=
  port_write cmd ;; sleep t.

(** [self._port.readline().rstrip().decode('utf-8')]. *)
Definition readline_str : M pystr :=
  raw <- port_readline ;;
  lift_opt UnicodeDecodeError (utf8_decode (rstrip raw)).

(** Lines 91-94 of [_identify]: the capabilities inferred from the
    identification string, [(channels, max_voltage, max_current)]. *)
Definition parse_model (ident : pystr) : exn + (Z * Z * Z) :=
  match KORAD_MODEL_REGEX_match ident with
  | None => inl AttributeError
  | Some model_info =>
    let chans := if zlist_eqb (g_channels model_info) (lit "0") then 1 else 3 in
    match py_int (g_max_current model_info) with
    | None => inl ValueError
    | Some mc =>
      match py_int (g_max_voltage model_info ++ lit "0") with
      | None => inl ValueError
      | Some mv => inr (chans, mv, mc)
      end
    end
  end.

(** [_identify], lines 87-95 (it uses [self.timeout] only, through
    [send_cmd]). *)
Definition _identify (t : Q) : M (pystr * Z * Z * Z) :=
  send_cmd t KORAD_ID_CMD ;;
  ident <- readline_str ;;
  r <- lift (parse_model ident) ;;
  let '(chans, mv, mc) := r in
  ret (ident, chans, mv, mc).

(** [Korad.__init__(addr, timeout=KORAD_MAX_TIMEOUT, clamp=True)],
    lines 52-64. *)
Definition korad_init (a : pystr) (t : Q) (c : bool) : M korad :=
  serial_for_url t ;;
  r <- _identify t ;;
  let '(ident, chans, mv, mc) := r in
  atexit_register ;;
  ret {| addr := a; clamp := c; timeout := t; id := ident;
         channels := chans; max_voltage := mv; max_current := mc |}.

(** The four value reads, lines 97-111 ([ch] defaults to 1). *)
Definition read_float (cmd : bytes) (t : Q) : M pyfloat :=
  send_cmd t cmd ;;
  s <- readline_str ;;
  lift_opt ValueError (py_float s).

Definition DEFAULT_CH : Z := 1.

Definition measured_voltage (k : korad) (ch : Z) : M pyfloat :=
  read_float (KORAD_VMEAS_CMD ch) (timeout k).
Definition measured_current (k : korad) (ch : Z) : M pyfloat :=
  read_float (KORAD_IMEAS_CMD ch) (timeout k).
Definition configured_voltage (k : korad) (ch : Z) : M pyfloat :=
  read_float (KORAD_VREAD_CMD ch) (timeout k).
Definition configured_current (k : korad) (ch : Z) : M pyfloat :=
  read_float (KORAD_IREAD_CMD ch) (timeout k).

(** The dictionary returned by the [status] property. *)
Record status_dict := {
  st_output : bool;
  st_mode : pystr;
  st_ocp : bool;
  st_v_out : pyfloat;
  st_i_out : pyfloat;
  st_v_set : pyfloat;
  st_i_set : pyfloat
}.

(** [status], lines 71-85. *)
Definition status (k : korad) : M status_dict :=
  send_cmd (timeout k) KORAD_STATUS_CMD ;;
  s <- readline_str ;;
  st <- lift (py_ord s) ;;
  let output := negb (Z.land st (Z.shiftl 1 6) =? 0) in
  let mode := if negb (Z.land st 1 =? 0) then lit "CV" else lit "CC" in
  let ocp := negb (Z.land st (Z.shiftl 1 5) =? 0) in
  v_out <- measured_voltage k DEFAULT_CH ;;
  i_out <- measured_current k DEFAULT_CH ;;
  v_set <- configured_voltage k DEFAULT_CH ;;
  i_set <- configured_current k DEFAULT_CH ;;
  ret {| st_output := output; st_mode := mode; st_ocp := ocp;
         st_v_out := v_out; st_i_out := i_out; st_v_set := v_set;
         st_i_set := i_set |}.

(** [set_voltage], lines 113-121. *)
Definition set_voltage (k : korad) (ch : Z) (voltage : pynum) : M unit :=
  v <- (if Qlt_bool (num_val voltage) 0 then ret (PInt 0)
        else if Qlt_bool (inject_Z (max_voltage k)) (num_val voltage) then
          if clamp k then ret (PInt (max_voltage k))
          else (msg <- lift (percent_format VOLTAGE_MSG [voltage]) ;; raise ValueError)
        else ret voltage) ;;
  send_cmd (timeout k) (KORAD_VSET_CMD ch v).

(** [set_current], lines 123-131. *)
Definition set_current (k : korad) (ch : Z) (current : pynum) : M unit :=
  v <- (if Qlt_bool (num_val current) 0 then ret (PInt 0)
        else if Qlt_bool (inject_Z (max_current k)) (num_val current) then
          if clamp k then ret (PInt (max_current k))
          else (msg <- lift (percent_format CURRENT_MSG [current]) ;; raise ValueError)
        else ret current) ;;
  send_cmd (timeout k) (KORAD_ISET_CMD ch v).

(** Lines 133-148. *)
Definition set_output (k : korad) (enable : bool) : M unit :=
  send_cmd (timeout k) (KORAD_OUTPUT_CMD (if enable then 1 else 0)).
Definition save_settings (k : korad) (loc : Z) : M unit :=
  send_cmd (timeout k) (KORAD_SAVE_CMD loc).
Definition recall_settings (k : korad) (loc : Z) : M unit :=
  send_cmd (timeout k) (KORAD_RECALL_CMD loc).
Definition set_ocp (k : korad) (enable : bool) : M unit :=
  send_cmd (timeout k) (KORAD_OCP_CMD (if enable then 1 else 0)).
Definition close (k : korad) : M unit := port_close.

(** The [params] dictionary of [configure]: each key may be absent
    ([None]); a [voltage]/[current] entry is the keyword dictionary
    [{'ch': ch, 'voltage': v}] passed as [**entry]. *)
Record config := {
  cfg_output : option bool;
  cfg_ocp : option bool;
  cfg_voltage : option (list (Z * pynum));
  cfg_current : option (list (Z * pynum))
}.

Fixpoint for_each {A} (f : A -> M unit) (l : list A) : M unit :=
  match l with
  | [] => ret tt
  | x :: t => f x ;; for_each f t
  end.

(** Truthiness of [params.get(key, False)] for a list value. *)
Definition truthy_list {A} (o : option (list A)) : bool :=
  match o with Some (_ :: _) => true | _ => false end.

(** [configure], lines 150-158. *)
Definition configure (k : korad) (params : config) : M unit :=
  set_output k (match cfg_output params with Some b => b | None => false end) ;;
  set_ocp k (match cfg_ocp params with Some b => b | None => false end) ;;
  (if truthy_list (cfg_voltage params) then
     for_each (fun e => set_voltage k (fst e) (snd e))
              (match cfg_voltage params with Some l => l | None => [] end)
   else ret tt) ;;
  (if truthy_list (cfg_current params) then
     for_each (fun e => set_current k (fst e) (snd e))
              (match cfg_current params with Some l => l | None => [] end)
   else ret tt).

(** The public operations of a handle, results discarded. *)
Inductive op :=
| OStatus
| OMeasuredVoltage (ch : Z)
| OMeasuredCurrent (ch : Z)
| OConfiguredVoltage (ch : Z)
| OConfiguredCurrent (ch : Z)
| OSetVoltage (ch : Z) (v : pynum)
| OSetCurrent (ch : Z) (v : pynum)
| OSetOutput (enable : bool)
| OSaveSettings (loc : Z)
| ORecallSettings (loc : Z)
| OSetOcp (enable : bool)
| OClose
| OConfigure (params : config).

Definition ignore {A} (m : M A) : M unit := _ <- m ;; ret tt.

Definition run_op (k : korad) (o : op) : M unit :=
  match o with
  | OStatus => ignore (status k)
  | OMeasuredVoltage ch => ignore (measured_voltage k ch)
  | OMeasuredCurrent ch => ignore (measured_current k ch)
  | OConfiguredVoltage ch => ignore (configured_voltage k ch)
  | OConfiguredCurrent ch => ignore (configured_current k ch)
  | OSetVoltage ch v => set_voltage k ch v
  | OSetCurrent ch v => set_current k ch v
  | OSetOutput b => set_output k b
  | OSaveSettings loc => save_settings k loc
  | ORecallSettings loc => recall_settings k loc
  | OSetOcp b => set_ocp k b
  | OClose => close k
  | OConfigure params => configure k params
  end.

Definition run_ops (k : korad) (l : list op) : M unit := for_each (run_op k) l.

(** The application order the spec gives for [configure(spec)]:
    output-enable, then OCP-enable (both default false), then the voltage
    settings, then the current settings, each list in order (default
    empty). *)
Definition configure_spec_ops (params : config) : list op :=
  [OSetOutput (match cfg_output params with Some b => b | None => false end);
   OSetOcp (match cfg_ocp params with Some b => b | None => false end)]
  ++ map (fun e => OSetVoltage (fst e) (snd e))
         (match cfg_voltage params with Some l => l | None => [] end)
  ++ map (fun e => OSetCurrent (fst e) (snd e))
         (match cfg_current params with Some l => l | None => [] end).

End Korad.

(** [n] calls of the same operation in a row. *)
Fixpoint repeat_m (n : nat) (m : M unit) : M unit :=
  match n with
  | O => ret tt
  | S n' => m ;; repeat_m n' m
  end.

(** The number of times the port actually closed. *)
Definition count_closes (l : list event) : nat :=
  List.length (filter (fun e => match e with EClose => true | _ => false end) l).

(** The bytes written, in order. *)
Fixpoint writes (l : list event) : list bytes :=
  match l with
  | [] => []
  | EWrite b :: t => b :: writes t
  | _ :: t => writes t
  end.


(** ** The function interface, lines 164-236 *)

(** [with _serial.Serial(addr, baudrate=KORAD_BAUD, ..., timeout=KORAD_MAX_TIMEOUT)
    as port: body]: the constructor opens the port; leaving the block,
    normally or by an exception, closes it ([Serial.__exit__]), and the
    exception, if any, propagates. *)
Definition with_serial {A} (body : M A) : M A :=
  serial_for_url KORAD_MAX_TIMEOUT ;;
  (fun w => let (r, w1) := body w in let (_, w2) := port_close w1 in (r, w2)).

Section FunctionInterface.

Variable float_repr : Q -> pystr.

(** The functions return [None]: [unit] here. *)
Definition korad_set_voltage (a : pystr) (ch : Z) (voltage : pynum) : M unit :=
  with_serial (port_write (KORAD_VSET_CMD float_repr ch voltage)).

Definition korad_set_current (a : pystr) (ch : Z) (current : pynum) (clamp : bool) : M unit :=
  with_serial (port_write (KORAD_ISET_CMD float_repr ch current)).

End FunctionInterface.

Definition korad_get_desired_voltage (a : pystr) (ch : Z) : M unit :=
  with_serial (port_write (KORAD_VREAD_CMD ch)).

Definition korad_get_desired_current (a : pystr) (ch : Z) : M unit :=
  with_serial (port_write (KORAD_IREAD_CMD ch)).

Definition korad_get_actual_voltage (a : pystr) (ch : Z) : M unit :=
  with_serial (port_write (KORAD_VMEAS_CMD ch)).

Definition korad_get_actual_current (a : pystr) (ch : Z) : M unit :=
  with_serial (port_write (KORAD_IMEAS_CMD ch)).

Definition korad_set_output (a : pystr) (enable : bool) : M unit :=
  with_serial (port_write (KORAD_OUTPUT_CMD (if enable then 1 else 0))).

Definition korad_set_ocp (a : pystr) (enable : bool) : M unit :=
  with_serial (port_write (KORAD_OCP_CMD (if enable then 1 else 0))).

Definition korad_identify (a : pystr) : M pystr :=
  with_serial (port_write KORAD_ID_CMD ;; readline_str).

(** [korad_status] computes its dictionary (pure bit tests once [ord]
    succeeded) and has no [return]: it returns [None]. *)
Definition korad_status (a : pystr) : M unit :=
  with_serial (port_write KORAD_STATUS_CMD ;;
               s <- readline_str ;;
               st <- lift (py_ord s) ;;
               ret tt).

Definition korad_save_settings (a : pystr) (loc : Z) : M unit :=
  with_serial (port_write (KORAD_SAVE_CMD loc)).

Definition korad_load_settings (a : pystr) (loc : Z) : M unit :=
  with_serial (port_write (KORAD_RECALL_CMD loc)).

(** The one-shot functions of the interface, results discarded. *)
Inductive fcall :=
| FSetVoltage (ch : Z) (v : pynum)
| FSetCurrent (ch : Z) (v : pynum) (clamp : bool)
| FGetDesiredVoltage (ch : Z)
| FGetDesiredCurrent (ch : Z)
| FGetActualVoltage (ch : Z)
| FGetActualCurrent (ch : Z)
| FSetOutput (enable : bool)
| FSetOcp (enable : bool)
| FIdentify
| FStatus
| FSaveSettings (loc : Z)
| FLoadSettings (loc : Z).

Definition run_fcall (fr : Q -> pystr) (a : pystr) (f : fcall) : M unit :=
  match f with
  | FSetVoltage ch v => korad_set_voltage fr a ch v
  | FSetCurrent ch v c => korad_set_current fr a ch v c
  | FGetDesiredVoltage ch => korad_get_desired_voltage a ch
  | FGetDesiredCurrent ch => korad_get_desired_current a ch
  | FGetActualVoltage ch => korad_get_actual_voltage a ch
  | FGetActualCurrent ch => korad_get_actual_current a ch
  | FSetOutput b => korad_set_output a b
  | FSetOcp b => korad_set_ocp a b
  | FIdentify => ignore (korad_identify a)
  | FStatus => korad_status a
  | FSaveSettings loc => korad_save_settings a loc
  | FLoadSettings loc => korad_load_settings a loc
  end.

(** ** Concrete inputs

    The handle of the test suite ([korad_api_test.py]: a KD3005P on
    [COM4]), and an open port whose device answers with the given
    [readline] results. *)
Definition k_test (c : bool) : korad :=
  {| addr := lit "COM4"; clamp := c; timeout := KORAD_MAX_TIMEOUT;
     id := lit "RND 320-KD3005P V2.0"; channels := 1; max_voltage := 30;
     max_current := 5 |}.

Definition port_with (replies : list bytes) : world :=
  {| dev_present := true; port_open := true; port_timeout := KORAD_MAX_TIMEOUT;
     rx := replies; log := [] |}.

(** A device present but not yet opened. *)
Definition device_with (replies : list bytes) : world :=
  {| dev_present := true; port_open := false; port_timeout := 0;
     rx := replies; log := [] |}.

Definition LF : list Z := [10].

(** Replies to a [status] query: status byte [0x61], then the four
    channel-1 values. *)
Definition status_replies : list bytes :=
  [[97]; lit "5.00"; lit "0.100"; lit "5.00"; lit "1.000"].

(** A [str(float)] used on the concrete inputs. *)
Definition repr_example (q : Q) : pystr := lit "3.29".

(** The same handle with another [clamp] flag. *)
Definition with_clamp (k : korad) (c : bool) : korad :=
  {| addr := addr k; clamp := c; timeout := timeout k; id := id k; channels := channels k;
     max_voltage := max_voltage k; max_current := max_current k |}.

(** A port whose device is not there. *)
Definition no_device : world :=
  {| dev_present := false; port_open := false; port_timeout := 0; rx := []; log := [] |}.

(** A [configure] dictionary with both lists given. *)
Definition cfg_example (vs cs : list (Z * pynum)) : config :=
  {| cfg_output := Some true; cfg_ocp := None; cfg_voltage := Some vs; cfg_current := Some cs |}.

(** * Properties *)

(** ** The model-number pattern *)

Lemma try_from_some (n : nat) (s : pystr) (g : groups) :
  try_from n s = Some g -> exists m, match_body (skipn m s) = Some g.
Proof.
  induction n as [|n IH]; intros H; cbn [try_from] in H.
  - exists 0%nat. destruct (match_body (skipn 0 s)) eqn:E; [congruence | discriminate].
  - destruct (match_body (skipn (S n) s)) eqn:E.
    + exists (S n). congruence.
    + apply IH; exact H.
Qed.

Lemma firstn_digit_run (n : nat) (rest : pystr) :
  (n <= digit_run rest)%nat -> forallb is_digit (firstn n rest) = true.
Proof.
  revert n; induction rest as [|c t IH]; intros n Hn.
  - now rewrite firstn_nil.
  - destruct n as [|n]; [reflexivity|].
    simpl in Hn |- *. destruct (is_digit c) eqn:Ec; [|lia].
    simpl. apply IH. lia.
Qed.

Lemma try_plus_some (n : nat) (rest cur : pystr) :
  try_plus n rest = Some cur -> (n <= digit_run rest)%nat ->
  cur <> [] /\ forallb is_digit cur = true.
Proof.
  induction n as [|n IH]; cbn [try_plus]; intros H Hn; [discriminate|].
  destruct (nth_error rest (S n)) as [c|] eqn:E.
  - destruct (ci_p c).
    + injection H as Hc; subst cur. split.
      * destruct rest; simpl in *; [lia | discriminate].
      * exact (firstn_digit_run (S n) rest Hn).
    + apply IH; [exact H | lia].
  - apply IH; [exact H | lia].
Qed.

Lemma match_body_some (t : pystr) (g : groups) :
  match_body t = Some g ->
  exists d c, g_max_voltage g = [d] /\ is_digit d = true /\
    g_channels g = [c] /\ is_digit c = true /\
    g_max_current g <> [] /\ forallb is_digit (g_max_current g) = true.
Proof.
  unfold match_body; intros H.
  destruct t as [|k [|pa [|v [|c rest]]]]; try discriminate.
  destruct (ci_k k && (ci_a pa || ci_d pa) && is_digit v && is_digit c) eqn:E;
    [|discriminate].
  apply andb_true_iff in E as [E Ec]. apply andb_true_iff in E as [E Ev].
  destruct (try_plus (digit_run rest) rest) as [cur|] eqn:Ep; [|discriminate].
  simpl in H. inversion H; subst; clear H; simpl.
  destruct (try_plus_some _ _ _ Ep (le_n _)) as [Hne Hd].
  exists v, c.
  refine (conj eq_refl (conj Ev (conj eq_refl (conj Ec (conj Hne Hd))))).
Qed.

Lemma digit_in_range (zs : list Z) (c d : Z) : digit_in zs c = Some d -> 0 <= d <= 9.
Proof.
  induction zs as [|z t IH]; cbn [digit_in]; [discriminate|].
  destruct (in_range z (z + 9) c) eqn:E; [|exact IH].
  intros H. injection H as <-. unfold in_range in E.
  apply andb_true_iff in E as [E1 E2]. apply Z.leb_le in E1. apply Z.leb_le in E2. lia.
Qed.

Lemma decimal_value_range (c d : Z) : decimal_value c = Some d -> 0 <= d <= 9.
Proof. apply digit_in_range. Qed.

Lemma is_digit_value (c : Z) :
  is_digit c = true -> exists d, decimal_value c = Some d /\ 0 <= d <= 9.
Proof.
  unfold is_digit. destruct (decimal_value c) as [d|] eqn:E; [|discriminate].
  intros _. exists d. split; [reflexivity | exact (decimal_value_range _ _ E)].
Qed.

Lemma py_int_digits (s : pystr) :
  s <> [] -> forallb is_digit s = true ->
  py_int s = if (List.length s <=? INT_MAX_STR_DIGITS)%nat
             then Some (digits_value 0 s) else None.
Proof.
  intros Hne Hd. unfold py_int. destruct s; [congruence|]. now rewrite Hd.
Qed.

Lemma py_int_tens (d dv : Z) :
  decimal_value d = Some dv -> py_int ([d] ++ lit "0") = Some (10 * dv).
Proof.
  intros Hd. change ([d] ++ lit "0") with [d; 48].
  rewrite py_int_digits by (try discriminate; cbn [forallb];
    unfold is_digit at 1; rewrite Hd; reflexivity).
  cbn [List.length digits_value]. unfold digit_val at 1. rewrite Hd.
  change (digit_val 48) with 0. cbn -[Z.mul Z.add]. f_equal. lia.
Qed.

(** C1, amended: for every identification string the model pattern
    matches, the captured voltage and channel groups are single decimal
    digits (any Unicode decimal digit, as [\d] on a [str]) and the current
    group a non-empty digit string.  The channel count is 1 when the
    channel digit is ['0'] and 3 otherwise, the maximum voltage is ten
    times the value of the voltage digit and the maximum current is the
    captured integer, provided that integer has at most 4300 digits;
    a longer one makes [int()] raise [ValueError].  The identification
    strings ["RND 320-KD3005P V2.0"] and ["KD٣005P"] (Arabic-Indic
    three) both give channels 1, maximum voltage 30 and maximum current 5. *)
Theorem identify_capabilities :
  (forall (ident : pystr) (g : groups),
     KORAD_MODEL_REGEX_match ident = Some g ->
     exists d c dv,
       g_max_voltage g = [d] /\ decimal_value d = Some dv /\ 0 <= dv <= 9 /\
       g_channels g = [c] /\ is_digit c = true /\
       g_max_current g <> [] /\ forallb is_digit (g_max_current g) = true /\
       parse_model ident =
         if (List.length (g_max_current g) <=? INT_MAX_STR_DIGITS)%nat
         then inr ((if c =? 48 then 1 else 3), 10 * dv, digits_value 0 (g_max_current g))
         else inl ValueError)
  /\ parse_model (lit "RND 320-KD3005P V2.0") = inr (1, 30, 5)
  /\ parse_model [75; 68; 1635; 48; 48; 53; 80] = inr (1, 30, 5).
Proof.
  split; [|split; vm_compute; reflexivity].
  intros ident g H.
  destruct (try_from_some _ _ _ H) as [m Hm].
  destruct (match_body_some _ _ Hm)
    as (d & c & Hv & Hd & Hc & Hcd & Hne & Hcur).
  destruct (is_digit_value d Hd) as (dv & Hdv & Hr).
  exists d, c, dv. do 7 (split; [assumption|]).
  unfold parse_model. rewrite H, Hc, Hv, (py_int_digits _ Hne Hcur).
  destruct (List.length (g_max_current g) <=? INT_MAX_STR_DIGITS)%nat; [|reflexivity].
  rewrite (py_int_tens d dv Hdv).
  cbn [zlist_eqb lit]. simpl. now rewrite andb_true_r.
Qed.

(** C1, counterexample: the pattern matches ["KD30"] followed by 4301
    fives and ["P"], but [int()] refuses the 4301-digit current group, so
    [_identify] raises [ValueError] and no capabilities are derived. *)
Lemma identify_long_current_rejected :
  KORAD_MODEL_REGEX_match (lit "KD30" ++ repeat 53 4301 ++ lit "P") <> None /\
  parse_model (lit "KD30" ++ repeat 53 4301 ++ lit "P") = inl ValueError.
Proof. split; [vm_compute; discriminate | vm_compute; reflexivity]. Qed.

(** ** Set-points *)

(** The world after [send_cmd t b] on an open port. *)
Definition written (w : world) (b : bytes) (t : Q) : world :=
  emit (emit w (EWrite b)) (ESleep t).

Lemma send_cmd_open (t : Q) (b : bytes) (w : world) :
  port_open w = true -> send_cmd t b w = (inr tt, written w b t).
Proof. intros Ho. unfold send_cmd, bind, port_write. now rewrite Ho. Qed.

Lemma Qlt_bool_iff (x y : Q) : Qlt_bool x y = true <-> (x < y)%Q.
Proof.
  unfold Qlt_bool. rewrite negb_true_iff. split; intros H.
  - apply Qnot_le_lt. intros Hle. apply Qle_bool_iff in Hle. congruence.
  - destruct (Qle_bool y x) eqn:E; [|reflexivity].
    apply Qle_bool_iff in E. exfalso. apply (Qlt_not_le _ _ H E).
Qed.

Lemma Qlt_bool_false (x y : Q) : (y <= x)%Q -> Qlt_bool x y = false.
Proof.
  intros H. destruct (Qlt_bool x y) eqn:E; [|reflexivity].
  apply Qlt_bool_iff in E. exfalso. apply (Qlt_not_le _ _ E H).
Qed.

Lemma Qlt_bool_true (x y : Q) : (x < y)%Q -> Qlt_bool x y = true.
Proof. apply Qlt_bool_iff. Qed.

Lemma Qlt_bool_asym (x y : Q) : (x < y)%Q -> Qlt_bool y x = false.
Proof. intros H. apply Qlt_bool_false. now apply Qlt_le_weak. Qed.

Lemma max_nonneg_not_neg (v : Q) (mx : Z) :
  (inject_Z mx < v)%Q -> (0 <= mx) -> Qlt_bool v 0 = false.
Proof.
  intros H Hm. apply Qlt_bool_false.
  apply Qle_trans with (inject_Z mx); [|now apply Qlt_le_weak].
  change 0%Q with (inject_Z 0). now rewrite <- Zle_Qle.
Qed.

(** C2: with clamping enabled, on an open port, [set_voltage] and
    [set_current] write exactly one set-point command (followed by the
    settle delay): for a negative request it carries the literal [0], for
    a request above the maximum the literal of the maximum, and for a
    request in [0, maximum] the requested value itself.  (The maxima of a
    handle are non-negative: they come from [parse_model].) *)
Theorem set_point_clamped (fr : Q -> pystr) (k : korad) (w : world) (ch : Z) (v : pynum)
  (Hclamp : clamp k = true) (Hopen : port_open w = true)
  (Hmv : 0 <= max_voltage k) (Hmc : 0 <= max_current k) :
  ((num_val v < 0)%Q ->
     set_voltage fr k ch v w = (inr tt, written w (KORAD_VSET_CMD fr ch (PInt 0)) (timeout k)) /\
     set_current fr k ch v w = (inr tt, written w (KORAD_ISET_CMD fr ch (PInt 0)) (timeout k))) /\
  ((inject_Z (max_voltage k) < num_val v)%Q ->
     set_voltage fr k ch v w =
       (inr tt, written w (KORAD_VSET_CMD fr ch (PInt (max_voltage k))) (timeout k))) /\
  ((inject_Z (max_current k) < num_val v)%Q ->
     set_current fr k ch v w =
       (inr tt, written w (KORAD_ISET_CMD fr ch (PInt (max_current k))) (timeout k))) /\
  ((0 <= num_val v <= inject_Z (max_voltage k))%Q ->
     set_voltage fr k ch v w = (inr tt, written w (KORAD_VSET_CMD fr ch v) (timeout k))) /\
  ((0 <= num_val v <= inject_Z (max_current k))%Q ->
     set_current fr k ch v w = (inr tt, written w (KORAD_ISET_CMD fr ch v) (timeout k))).
Proof.
  unfold set_voltage, set_current.
  split; [|split; [|split; [|split]]]; intros H; [split|..].
  - rewrite (Qlt_bool_true _ _ H). apply send_cmd_open, Hopen.
  - rewrite (Qlt_bool_true _ _ H). apply send_cmd_open, Hopen.
  - rewrite (max_nonneg_not_neg _ _ H Hmv), (Qlt_bool_true _ _ H), Hclamp.
    apply send_cmd_open, Hopen.
  - rewrite (max_nonneg_not_neg _ _ H Hmc), (Qlt_bool_true _ _ H), Hclamp.
    apply send_cmd_open, Hopen.
  - destruct H as [H0 H1].
    rewrite (Qlt_bool_false _ _ H0), (Qlt_bool_false _ _ H1).
    apply send_cmd_open, Hopen.
  - destruct H as [H0 H1].
    rewrite (Qlt_bool_false _ _ H0), (Qlt_bool_false _ _ H1).
    apply send_cmd_open, Hopen.
Qed.

(** C3 (the defect): with clamping disabled, a request above the maximum
    makes [set_voltage] and [set_current] raise [TypeError] (the message
    [... %s ... %s' % voltage] has two specifiers for one argument), and
    leave the transport untouched. *)
Theorem set_point_unclamped_raises (fr : Q -> pystr) (k : korad) (w : world) (ch : Z) (v : pynum)
  (Hclamp : clamp k = false)
  (Hmv : 0 <= max_voltage k) (Hmc : 0 <= max_current k) :
  ((inject_Z (max_voltage k) < num_val v)%Q ->
     set_voltage fr k ch v w = (inl TypeError, w)) /\
  ((inject_Z (max_current k) < num_val v)%Q ->
     set_current fr k ch v w = (inl TypeError, w)).
Proof.
  unfold set_voltage, set_current.
  split; intros H.
  - rewrite (max_nonneg_not_neg _ _ H Hmv), (Qlt_bool_true _ _ H), Hclamp.
    reflexivity.
  - rewrite (max_nonneg_not_neg _ _ H Hmc), (Qlt_bool_true _ _ H), Hclamp.
    reflexivity.
Qed.

(** ** Reads *)

Lemma read_float_silent (cmd : bytes) (t : Q) (w : world) :
  port_open w = true -> rx w = [] -> fst (read_float cmd t w) = inl ValueError.
Proof.
  intros Ho Hr. unfold read_float, bind.
  rewrite (send_cmd_open _ _ _ Ho).
  unfold readline_str, bind, port_readline. simpl. rewrite Ho, Hr. reflexivity.
Qed.

Lemma read_float_garbage (cmd : bytes) (t : Q) (w : world) (r : bytes) (rest : list bytes) (s : pystr) :
  port_open w = true -> rx w = r :: rest -> utf8_decode (rstrip r) = Some s ->
  py_float s = None -> fst (read_float cmd t w) = inl ValueError.
Proof.
  intros Ho Hr Hd Hf. unfold read_float, bind.
  rewrite (send_cmd_open _ _ _ Ho).
  unfold readline_str, bind, port_readline. simpl. rewrite Ho, Hr. simpl.
  rewrite Hd. simpl. rewrite Hf. reflexivity.
Qed.

(** C4, amended: no read raises a distinct timeout error.  When the
    device stays silent, [readline] returns [b''] after the read timeout;
    the four value reads then raise [ValueError] and [status] raises
    [TypeError] ([ord('')]).  The value reads raise the same [ValueError]
    for any decodable reply that [float()] rejects. *)
Theorem read_timeout_not_distinct (k : korad) (ch : Z) (w : world)
  (Hopen : port_open w = true) :
  (rx w = [] ->
     Forall (fun rd => fst (rd k ch w) = inl ValueError)
       [measured_voltage; measured_current; configured_voltage; configured_current] /\
     fst (status k w) = inl TypeError) /\
  (forall r rest s, rx w = r :: rest -> utf8_decode (rstrip r) = Some s ->
     py_float s = None ->
     Forall (fun rd => fst (rd k ch w) = inl ValueError)
       [measured_voltage; measured_current; configured_voltage; configured_current]).
Proof.
  split.
  - intros Hr. split.
    + repeat constructor; apply read_float_silent; assumption.
    + unfold status, bind at 1. rewrite (send_cmd_open _ _ _ Hopen).
      unfold readline_str, bind, port_readline. simpl. rewrite Hopen, Hr.
      reflexivity.
  - intros r rest s Hr Hd Hf.
    repeat constructor; eapply read_float_garbage; eassumption.
Qed.

(** C4, counterexample: a silent device (no reply before the timeout) and
    a device answering ["ERR"] make [measured_voltage] fail with the same
    [ValueError]; no timeout error is raised. *)
Lemma read_timeout_same_as_garbage :
  fst (measured_voltage (k_test true) 1 (port_with [])) = inl ValueError /\
  fst (measured_voltage (k_test true) 1 (port_with [lit "ERR" ++ LF])) = inl ValueError.
Proof. split; vm_compute; reflexivity. Qed.

(** ** Opening a session *)



(** ** Status decoding *)

(** C6 (the defect): the status byte goes through [readline().rstrip()
    .decode('utf-8')] and [ord] before its bits are read.  The byte
    [0x20] (OCP enabled, output off, constant current) is stripped as
    whitespace and [status] raises [TypeError]; a byte with bit 7 set is
    not UTF-8 and raises [UnicodeDecodeError].  The two bytes of the spec
    do decode as it says. *)
Theorem status_byte_decoding :
  fst (status (k_test true) (port_with [[32]; lit "0.00"; lit "0.000"; lit "5.00"; lit "1.000"]))
    = inl TypeError /\
  fst (status (k_test true) (port_with [[161]; lit "0.00"; lit "0.000"; lit "5.00"; lit "1.000"]))
    = inl UnicodeDecodeError /\
  match fst (status (k_test true)
               (port_with [[97]; lit "5.00"; lit "0.100"; lit "5.00"; lit "1.000"])) with
  | inr d => st_mode d = lit "CV" /\ st_ocp d = true /\ st_output d = true
  | inl _ => False
  end /\
  match fst (status (k_test true)
               (port_with [[0]; lit "0.00"; lit "0.000"; lit "5.00"; lit "1.000"])) with
  | inr d => st_mode d = lit "CC" /\ st_ocp d = false /\ st_output d = false
  | inl _ => False
  end.
Proof. vm_compute. repeat split. Qed.

(** ** Bulk configuration *)

Lemma bind_ext {A B} (m m' : M A) (f f' : A -> M B) :
  (forall w, m w = m' w) -> (forall x w, f x w = f' x w) ->
  forall w, bind m f w = bind m' f' w.
Proof.
  intros Hm Hf w. unfold bind. rewrite Hm.
  destruct (m' w) as [[e|a] w']; [reflexivity | apply Hf].
Qed.

Lemma bind_assoc {A B C} (m : M A) (f : A -> M B) (g : B -> M C) (w : world) :
  bind (bind m f) g w = bind m (fun x => bind (f x) g) w.
Proof. unfold bind. destruct (m w) as [[e|a] w']; reflexivity. Qed.

Lemma for_each_ext {A} (f g : A -> M unit) (l : list A) :
  (forall x w, f x w = g x w) -> forall w, for_each f l w = for_each g l w.
Proof.
  intros H. induction l as [|x t IH]; intros w; [reflexivity|].
  simpl. apply bind_ext; [apply H | intros _; apply IH].
Qed.

Lemma for_each_app {A} (f : A -> M unit) (l1 l2 : list A) (w : world) :
  for_each f (l1 ++ l2) w = bind (for_each f l1) (fun _ => for_each f l2) w.
Proof.
  revert w. induction l1 as [|x t IH]; intros w; [reflexivity|].
  simpl. rewrite bind_assoc.
  apply bind_ext; [reflexivity | intros _; apply IH].
Qed.

Lemma for_each_map {A B} (f : B -> M unit) (g : A -> B) (l : list A) (w : world) :
  for_each f (map g l) w = for_each (fun x => f (g x)) l w.
Proof.
  revert w. induction l as [|x t IH]; intros w; [reflexivity|].
  simpl. apply bind_ext; [reflexivity | intros _; apply IH].
Qed.

(** C7: [configure] is exactly the run of the operations of
    [configure_spec_ops]: set-output with the output flag (default
    false), set-ocp with the OCP flag (default false), each voltage
    setting in list order through [set_voltage], each current setting in
    list order through [set_current], and nothing else. *)
Theorem configure_order (fr : Q -> pystr) (k : korad) (params : config) (w : world) :
  configure fr k params w = run_ops fr k (configure_spec_ops params) w.
Proof.
  unfold configure, run_ops, configure_spec_ops. cbn [app for_each].
  apply bind_ext; [reflexivity | intros _ w1].
  apply bind_ext; [reflexivity | intros _ w2].
  rewrite for_each_app.
  apply bind_ext.
  - intros w3. rewrite for_each_map.
    destruct (cfg_voltage params) as [[|e l]|]; reflexivity.
  - intros _ w3. rewrite for_each_map.
    destruct (cfg_current params) as [[|e l]|]; reflexivity.
Qed.

(** ** Closing *)

Lemma close_on_closed (n : nat) (w : world) :
  port_open w = false -> repeat_m n port_close w = (inr tt, w).
Proof.
  intros Hc. induction n as [|n IH]; [reflexivity|].
  simpl. unfold bind at 1. unfold port_close at 1. rewrite Hc. exact IH.
Qed.

Lemma count_closes_snoc (l : list event) (e : event) :
  count_closes (l ++ [e]) =
  (count_closes l + match e with EClose => 1 | _ => 0 end)%nat.
Proof.
  unfold count_closes. rewrite filter_app, length_app.
  destruct e; reflexivity.
Qed.

(** C8: any number (at least one) of [close()] calls in a row on a
    handle, open or already closed, raise nothing, leave the port closed,
    and close the transport exactly once if it was open and never if it
    was already closed. *)
Theorem close_idempotent (k : korad) (n : nat) (w : world) :
  let '(res, w') := repeat_m (S n) (close k) w in
  res = inr tt /\ port_open w' = false /\
  count_closes (log w') = (count_closes (log w) + if port_open w then 1 else 0)%nat.
Proof.
  simpl. unfold bind at 1, close, port_close.
  destruct (port_open w) eqn:Ho.
  - rewrite close_on_closed by reflexivity. simpl.
    split; [reflexivity | split; [reflexivity|]].
    now rewrite count_closes_snoc.
  - rewrite close_on_closed by exact Ho.
    split; [reflexivity | split; [exact Ho | now rewrite Nat.add_0_r]].
Qed.

(** ** The settle delay *)


















(** ** What [status] reads *)

(** When [m] succeeds it has only appended to the log, and written
    exactly [bs]. *)
Definition Writes {A} (m : M A) (bs : list bytes) : Prop :=
  forall w a w', m w = (inr a, w') -> exists l, log w' = log w ++ l /\ writes l = bs.

Lemma writes_app (l1 l2 : list event) : writes (l1 ++ l2) = writes l1 ++ writes l2.
Proof. induction l1 as [|e t IH]; [reflexivity|]. destruct e; simpl; rewrite ?IH; reflexivity. Qed.

Lemma Writes_bind {A B} (m : M A) (f : A -> M B) (b1 b2 : list bytes) :
  Writes m b1 -> (forall a, Writes (f a) b2) -> Writes (bind m f) (b1 ++ b2).
Proof.
  intros Hm Hf w b w'' H. unfold bind in H.
  destruct (m w) as [[e|a] w'] eqn:E; [discriminate|].
  destruct (Hm w a w' E) as (l1 & Hl1 & Hw1).
  destruct (Hf a w' b w'' H) as (l2 & Hl2 & Hw2).
  exists (l1 ++ l2). rewrite Hl2, Hl1, app_assoc, writes_app, Hw1, Hw2. auto.
Qed.

Lemma Writes_send_cmd (t : Q) (b : bytes) : Writes (send_cmd t b) [b].
Proof.
  intros w a w' H. unfold send_cmd, bind, port_write in H.
  destruct (port_open w); [|discriminate]. simpl in H. inversion H; subst.
  exists [EWrite b; ESleep t]. simpl. now rewrite <- app_assoc.
Qed.

Lemma Writes_readline_str : Writes readline_str [].
Proof.
  intros w a w' H. unfold readline_str, bind, port_readline, lift_opt in H.
  destruct (port_open w); [|discriminate].
  destruct (rx w) as [|r rest]; simpl in H.
  - unfold ret in H. inversion H; subst. exists [ERead []]. auto.
  - destruct (utf8_decode (rstrip r)); simpl in H; [|discriminate].
    unfold ret in H. inversion H; subst. exists [ERead r]. auto.
Qed.

Lemma Writes_lift {A} (r : exn + A) : Writes (lift r) [].
Proof.
  intros w a w' H. unfold lift in H. destruct r; inversion H; subst.
  exists []. now rewrite app_nil_r.
Qed.

Lemma Writes_lift_opt {A} (e : exn) (o : option A) : Writes (lift_opt e o) [].
Proof.
  intros w a w' H. destruct o; unfold lift_opt, ret, raise in H; inversion H; subst.
  exists []. now rewrite app_nil_r.
Qed.

Lemma Writes_ret {A} (x : A) : Writes (ret x) [].
Proof. intros w a w' H. inversion H; subst. exists []. now rewrite app_nil_r. Qed.

Lemma Writes_read_float (cmd : bytes) (t : Q) : Writes (read_float cmd t) [cmd].
Proof.
  unfold read_float. rewrite <- (app_nil_r [cmd]).
  apply Writes_bind; [apply Writes_send_cmd | intros _].
  rewrite <- (app_nil_r []).
  apply Writes_bind; [apply Writes_readline_str | intros s; apply Writes_lift_opt].
Qed.

(** C10: the value reads default their channel to 1, and a successful
    [status] query, for any handle whatever its channel count, writes
    [STATUS?] and then exactly the four channel-1 queries [VOUT1?],
    [IOUT1?], [VSET1?], [ISET1?], whose replies fill its four value
    fields. *)
Theorem status_reads_channel_1 (k : korad) (w w' : world) (d : status_dict) :
  status k w = (inr d, w') ->
  exists l, log w' = log w ++ l /\
    writes l = [KORAD_STATUS_CMD; KORAD_VMEAS_CMD 1; KORAD_IMEAS_CMD 1;
                KORAD_VREAD_CMD 1; KORAD_IREAD_CMD 1].
Proof.
  revert w d w'.
  change (Writes (status k)
            ([KORAD_STATUS_CMD] ++ [] ++ [] ++
             [KORAD_VMEAS_CMD DEFAULT_CH] ++ [KORAD_IMEAS_CMD DEFAULT_CH] ++
             [KORAD_VREAD_CMD DEFAULT_CH] ++ [KORAD_IREAD_CMD DEFAULT_CH] ++ [])).
  unfold status.
  apply Writes_bind; [apply Writes_send_cmd | intros _].
  apply Writes_bind; [apply Writes_readline_str | intros s].
  apply Writes_bind; [apply Writes_lift | intros st].
  apply Writes_bind; [apply Writes_read_float | intros vo].
  apply Writes_bind; [apply Writes_read_float | intros io].
  apply Writes_bind; [apply Writes_read_float | intros vs].
  apply Writes_bind; [apply Writes_read_float | intros is].
  apply Writes_ret.
Qed.

(** * Witnesses *)

Lemma identify_capabilities_witness :
  exists d c dv,
    g_max_voltage {| g_panel := [68]; g_max_voltage := [51]; g_channels := [48];
                     g_max_current := [48; 53] |} = [d] /\ decimal_value d = Some dv /\
    0 <= dv <= 9 /\
    g_channels {| g_panel := [68]; g_max_voltage := [51]; g_channels := [48];
                  g_max_current := [48; 53] |} = [c] /\ is_digit c = true /\
    [48; 53] <> [] /\ forallb is_digit [48; 53] = true /\
    parse_model (lit "RND 320-KD3005P V2.0") =
      if (List.length [48; 53] <=? INT_MAX_STR_DIGITS)%nat
      then inr ((if c =? 48 then 1 else 3), 10 * dv, digits_value 0 [48; 53])
      else inl ValueError.
Proof.
  apply (proj1 identify_capabilities (lit "RND 320-KD3005P V2.0")
           {| g_panel := [68]; g_max_voltage := [51]; g_channels := [48];
              g_max_current := [48; 53] |}).
  vm_compute. reflexivity.
Defined.

Lemma set_point_clamped_witness :
  set_voltage repr_example (k_test true) 1 (PInt 31) (port_with []) =
    (inr tt, written (port_with []) (KORAD_VSET_CMD repr_example 1 (PInt 30)) KORAD_MAX_TIMEOUT).
Proof.
  apply (set_point_clamped repr_example (k_test true) (port_with []) 1 (PInt 31));
    reflexivity || discriminate.
Defined.

Lemma set_point_unclamped_raises_witness :
  set_voltage repr_example (k_test false) 1 (PInt 31) (port_with []) =
    (inl TypeError, port_with []).
Proof.
  apply (set_point_unclamped_raises repr_example (k_test false) (port_with []) 1 (PInt 31));
    reflexivity || discriminate.
Defined.

Lemma read_timeout_not_distinct_witness :
  Forall (fun rd => fst (rd (k_test true) 1 (port_with [])) = inl ValueError)
    [measured_voltage; measured_current; configured_voltage; configured_current] /\
  fst (status (k_test true) (port_with [])) = inl TypeError.
Proof.
  apply (read_timeout_not_distinct (k_test true) 1 (port_with [])); reflexivity.
Defined.


Lemma status_reads_channel_1_witness :
  exists l, log (snd (status (k_test true) (port_with status_replies))) =
            log (port_with status_replies) ++ l /\
    writes l = [KORAD_STATUS_CMD; KORAD_VMEAS_CMD 1; KORAD_IMEAS_CMD 1;
                KORAD_VREAD_CMD 1; KORAD_IREAD_CMD 1].
Proof.
  apply (status_reads_channel_1 (k_test true) (port_with status_replies)
           (snd (status (k_test true) (port_with status_replies)))
           {| st_output := true; st_mode := lit "CV"; st_ocp := true;
              st_v_out := FFin (500 # 100); st_i_out := FFin (100 # 1000);
              st_v_set := FFin (500 # 100); st_i_set := FFin (1000 # 1000) |}).
  vm_compute. reflexivity.
Defined.

(** * Further properties of the code *)

(** ** How the model-number pattern chooses its match *)

Lemma try_from_iff (n : nat) (s : pystr) (g : groups) :
  try_from n s = Some g <->
  exists i, (i <= n)%nat /\ match_body (skipn i s) = Some g /\
    forall j, (i < j <= n)%nat -> match_body (skipn j s) = None.
Proof.
  induction n as [|n IH]; cbn [try_from].
  - split.
    + intros H. exists 0%nat. split; [lia|].
      destruct (match_body (skipn 0 s)); [split; [exact H | intros; lia] | discriminate].
    + intros (i & Hi & Hb & _). assert (i = 0%nat) by lia. subst. now rewrite Hb.
  - destruct (match_body (skipn (S n) s)) as [g'|] eqn:E; split.
    + intros H. exists (S n). split; [lia|]. split; [congruence | intros; lia].
    + intros (i & Hi & Hb & Hj).
      destruct (Nat.eq_dec i (S n)) as [->|Hne]; [congruence|].
      rewrite (Hj (S n)) in E by lia. discriminate.
    + intros H. apply IH in H as (i & Hi & Hb & Hj).
      exists i. split; [lia|]. split; [exact Hb|].
      intros j Hj'. destruct (Nat.eq_dec j (S n)) as [->|Hne]; [exact E|].
      apply Hj. lia.
    + intros (i & Hi & Hb & Hj).
      destruct (Nat.eq_dec i (S n)) as [->|Hne]; [congruence|].
      apply IH. exists i. split; [lia|]. split; [exact Hb|].
      intros j Hj'. apply Hj. lia.
Qed.

(** X1: [KORAD_MODEL_REGEX.match] succeeds exactly when a model number
    starts at some position up to the first newline ([.*] does not cross
    a newline, so a model number only after one, as in ["X
KD3005P"], is
    not found), and it then takes the last such position: an
    identification string naming several models on its first line yields
    the last one.  Digits are any Unicode decimal digits. *)
Theorem regex_match_last_model (s : pystr) (g : groups) :
  KORAD_MODEL_REGEX_match s = Some g <->
  exists i, (i <= dot_run s)%nat /\ match_body (skipn i s) = Some g /\
    forall j, (i < j <= dot_run s)%nat -> match_body (skipn j s) = None.
Proof. apply try_from_iff. Qed.

Lemma digit_run_nth (rest : pystr) (m : nat) :
  (m < digit_run rest)%nat -> exists d, nth_error rest m = Some d /\ is_digit d = true.
Proof.
  revert m; induction rest as [|c t IH]; intros m Hm; simpl in Hm; [lia|].
  destruct (is_digit c) eqn:Ec; [|lia].
  destruct m as [|m]; [exists c; auto|].
  simpl. apply IH. lia.
Qed.

Lemma digit_not_p (d : Z) : is_digit d = true -> ci_p d = false.
Proof.
  intros H. destruct (ci_p d) eqn:E; [|reflexivity].
  unfold ci_p in E. apply orb_true_iff in E as [E|E]; apply Z.eqb_eq in E;
    subst d; discriminate H.
Qed.

Lemma try_plus_below (m : nat) (rest : pystr) :
  (m < digit_run rest)%nat -> try_plus m rest = None.
Proof.
  induction m as [|m IH]; intros Hm; [reflexivity|].
  cbn [try_plus]. destruct (digit_run_nth rest (S m) Hm) as (d & Hd & Hdig).
  rewrite Hd, (digit_not_p d Hdig). apply IH. lia.
Qed.

Lemma try_plus_run (rest cur : pystr) :
  try_plus (digit_run rest) rest = Some cur <->
  (1 <= digit_run rest)%nat /\
  (exists p, nth_error rest (digit_run rest) = Some p /\ ci_p p = true) /\
  cur = firstn (digit_run rest) rest.
Proof.
  destruct (digit_run rest) as [|n] eqn:En.
  - split; [discriminate | intros (H & _); lia].
  - cbn [try_plus]. rewrite (try_plus_below n rest) by lia.
    destruct (nth_error rest (S n)) as [p|]; [destruct (ci_p p) eqn:Ep|].
    + split.
      * intros H. injection H as <-. split; [lia|]. split; [exists p; auto | reflexivity].
      * intros (_ & _ & ->). reflexivity.
    + split; [discriminate|]. intros (_ & (p' & Hp' & Hc) & _).
      injection Hp' as <-. congruence.
    + split; [discriminate|]. intros (_ & (p' & Hp' & _) & _). discriminate.
Qed.

(** X2: the pattern matches at a position exactly when it reads [k]/[K]
    (or the Kelvin sign), [a]/[d] in either case, two digits, and a run
    of at least one further digit followed directly by [p]/[P]; the
    current group is then that whole digit run (the greedy [\d+] never
    stops inside it). *)
Theorem model_number_at (t : pystr) (g : groups) :
  match_body t = Some g <->
  exists k pa v c rest,
    t = k :: pa :: v :: c :: rest /\
    ci_k k = true /\ (ci_a pa || ci_d pa) = true /\
    is_digit v = true /\ is_digit c = true /\
    (1 <= digit_run rest)%nat /\
    (exists p, nth_error rest (digit_run rest) = Some p /\ ci_p p = true) /\
    g = {| g_panel := [pa]; g_max_voltage := [v]; g_channels := [c];
           g_max_current := firstn (digit_run rest) rest |}.
Proof.
  split.
  - intros H. unfold match_body in H.
    destruct t as [|k [|pa [|v [|c rest]]]]; try discriminate.
    destruct (ci_k k) eqn:Ek, (ci_a pa || ci_d pa) eqn:Ea, (is_digit v) eqn:Ev,
      (is_digit c) eqn:Ec; simpl in H; try discriminate.
    destruct (try_plus (digit_run rest) rest) as [cur|] eqn:Et; [|discriminate].
    simpl in H. injection H as <-.
    apply try_plus_run in Et as (H1 & H2 & ->).
    exists k, pa, v, c, rest. auto 10.
  - intros (k & pa & v & c & rest & -> & Ek & Ea & Ev & Ec & H1 & H2 & ->).
    unfold match_body. rewrite Ek, Ea, Ev, Ec. simpl.
    assert (Ht : try_plus (digit_run rest) rest = Some (firstn (digit_run rest) rest))
      by (apply try_plus_run; auto).
    rewrite Ht. reflexivity.
Qed.

(** ** What the constructor guarantees *)

Lemma digits_value_nonneg (acc : Z) (s : pystr) :
  0 <= acc -> forallb is_digit s = true -> 0 <= digits_value acc s.
Proof.
  revert acc; induction s as [|c t IH]; intros acc Ha Hd; [exact Ha|].
  simpl in Hd |- *. apply andb_true_iff in Hd as [Hc Ht].
  destruct (is_digit_value c Hc) as (dv & Hdv & Hr).
  unfold digit_val. rewrite Hdv. apply IH; [lia | exact Ht].
Qed.

Lemma parse_model_ranges (s : pystr) (ch mv mc : Z) :
  parse_model s = inr (ch, mv, mc) ->
  (ch = 1 \/ ch = 3) /\ (exists d, 0 <= d <= 9 /\ mv = 10 * d) /\ 0 <= mc.
Proof.
  unfold parse_model. destruct (KORAD_MODEL_REGEX_match s) as [g|] eqn:Hm; [|discriminate].
  destruct (try_from_some _ _ _ Hm) as [m Hb].
  destruct (match_body_some _ _ Hb) as (d & c & Hv & Hd & Hc & Hcd & Hne & Hcur).
  destruct (is_digit_value d Hd) as (dv & Hdv & Hr).
  rewrite Hv, (py_int_digits _ Hne Hcur), (py_int_tens d dv Hdv).
  destruct (List.length (g_max_current g) <=? INT_MAX_STR_DIGITS)%nat; [|discriminate].
  intros H. injection H as <- <- <-. split; [|split].
  - destruct (zlist_eqb (g_channels g) (lit "0")); auto.
  - exists dv. split; [lia | reflexivity].
  - apply digits_value_nonneg; [lia | exact Hcur].
Qed.

Lemma identify_parsed (t : Q) (w w' : world) (i : pystr) (ch mv mc : Z) :
  _identify t w = (inr (i, ch, mv, mc), w') -> parse_model i = inr (ch, mv, mc).
Proof.
  unfold _identify, bind, lift.
  destruct (send_cmd t KORAD_ID_CMD w) as [[e|[]] w1]; [discriminate|].
  destruct (readline_str w1) as [[e|i'] w2]; [discriminate|].
  destruct (parse_model i') as [e|[[ch' mv'] mc']] eqn:Ep; [discriminate|].
  unfold ret. intros H. injection H as <- <- <- <- _. exact Ep.
Qed.

(** X3: every handle [Korad(addr, timeout, clamp)] returns keeps the given
    address, timeout and clamping flag, has a non-negative timeout (a
    negative one makes the port constructor raise [ValueError]), 1 or 3
    channels, a maximum voltage that is ten times a decimal digit's value
    (0 to 90), and a non-negative maximum current. *)
Theorem init_handle_invariants (a : pystr) (t : Q) (c : bool) (w : world) :
  match korad_init a t c w with
  | (inr k, _) =>
    addr k = a /\ clamp k = c /\ timeout k = t /\ (0 <= timeout k)%Q /\
    (channels k = 1 \/ channels k = 3) /\
    (exists d, 0 <= d <= 9 /\ max_voltage k = 10 * d) /\ 0 <= max_current k
  | (inl _, _) => True
  end.
Proof.
  unfold korad_init, bind at 1.
  destruct (serial_for_url t w) as [[e|[]] w1] eqn:Es; [exact I|].
  assert (Ht : (0 <= t)%Q).
  { unfold serial_for_url in Es. destruct (Qlt_bool t 0) eqn:Et; [discriminate|].
    apply Qnot_lt_le. intros Hlt. apply Qlt_bool_iff in Hlt. congruence. }
  unfold bind. destruct (_identify t w1) as [[e|[[[i ch] mv] mc]] w2] eqn:E; [exact I|].
  apply identify_parsed in E. apply parse_model_ranges in E.
  simpl. destruct E as (Hch & Hmv & Hmc). auto 8.
Qed.

(** ** Operations on a closed port *)

Lemma send_cmd_closed (t : Q) (b : bytes) (w : world) :
  port_open w = false -> send_cmd t b w = (inl SerialException, w).
Proof. intros Hc. unfold send_cmd, bind, port_write. now rewrite Hc. Qed.

Lemma bind_fail_first {A B} (m : M A) (f : A -> M B) (w : world) (e : exn) :
  m w = (inl e, w) -> bind m f w = (inl e, w).
Proof. intros H. unfold bind. now rewrite H. Qed.

Lemma set_point_closed (t : Q) (mk : pynum -> bytes) (x : pynum) (c : bool)
    (m : Z) (msg : exn + pystr) (w : world) :
  port_open w = false -> (forall y, msg <> inr y) ->
  bind (if Qlt_bool (num_val x) 0 then ret (PInt 0)
        else if Qlt_bool (inject_Z m) (num_val x) then
          if c then ret (PInt m)
          else (_ <- lift msg ;; raise ValueError)
        else ret x)
       (fun v => send_cmd t (mk v)) w =
  (inl (if negb (Qlt_bool (num_val x) 0) && Qlt_bool (inject_Z m) (num_val x) && negb c
        then match msg with inl e => e | inr _ => ValueError end
        else SerialException), w).
Proof.
  intros Hc Hm.
  destruct (Qlt_bool (num_val x) 0); [|destruct (Qlt_bool _ _); [destruct c|]];
    cbn [negb andb]; try (unfold bind at 1, ret; exact (send_cmd_closed _ _ _ Hc)).
  destruct msg as [e|y]; [reflexivity | exfalso; exact (Hm y eq_refl)].
Qed.

(** X4: once the port is closed (after [close()], say), every operation of
    a handle other than [close] raises and leaves the transport as it
    was: nothing is written or read.  The exception raised is pyserial's
    [SerialException], except for a non-negative set-point above the
    maximum on a handle with clamping off: the [%] slip of lines 120 and
    130 then raises [TypeError] before the port is reached. *)
Theorem closed_port_operations (fr : Q -> pystr) (k : korad) (o : op) (w : world) :
  port_open w = false -> o <> OClose ->
  run_op fr k o w =
  (inl (match o with
        | OSetVoltage _ v =>
          if negb (Qlt_bool (num_val v) 0) &&
             Qlt_bool (inject_Z (max_voltage k)) (num_val v) && negb (clamp k)
          then TypeError else SerialException
        | OSetCurrent _ v =>
          if negb (Qlt_bool (num_val v) 0) &&
             Qlt_bool (inject_Z (max_current k)) (num_val v) && negb (clamp k)
          then TypeError else SerialException
        | _ => SerialException
        end), w).
Proof.
  intros Hc Ho.
  destruct o; cbn [run_op]; try (exfalso; apply Ho; reflexivity);
    unfold ignore, status, measured_voltage, measured_current, configured_voltage,
      configured_current, read_float, set_output, save_settings, recall_settings,
      set_ocp, configure;
    try solve [repeat first [exact (send_cmd_closed _ _ _ Hc) | apply bind_fail_first]].
  - unfold set_voltage. rewrite (set_point_closed _ _ _ _ _ _ _ Hc); [reflexivity|].
    intros y. unfold percent_format. cbv [count_specs VOLTAGE_MSG CURRENT_MSG]. discriminate.
  - unfold set_current. rewrite (set_point_closed _ _ _ _ _ _ _ Hc); [reflexivity|].
    intros y. unfold percent_format. cbv [count_specs VOLTAGE_MSG CURRENT_MSG]. discriminate.
Qed.

(** ** [configure] on an open port *)

(** [m] succeeds on any open port, touches nothing but the log, and
    writes [n] commands. *)
Definition OkCount (m : M unit) (n : nat) : Prop :=
  forall w, port_open w = true ->
  exists l, m w = (inr tt, set_log w (log w ++ l)) /\ List.length (writes l) = n.

Lemma set_log_nil (w : world) : set_log w (log w ++ []) = w.
Proof. destruct w. unfold set_log. cbn. now rewrite app_nil_r. Qed.

Lemma ok_ret : OkCount (ret tt) 0.
Proof. intros w _. exists []. now rewrite set_log_nil. Qed.

Lemma ok_send_cmd (t : Q) (b : bytes) : OkCount (send_cmd t b) 1.
Proof.
  intros w Hw. unfold send_cmd, bind, port_write, sleep. rewrite Hw.
  exists [EWrite b; ESleep t]. split; [|reflexivity].
  unfold emit, set_log. cbn. now rewrite <- app_assoc.
Qed.

Lemma ok_bind (m : M unit) (f : unit -> M unit) (n1 n2 : nat) :
  OkCount m n1 -> OkCount (f tt) n2 -> OkCount (bind m f) (n1 + n2).
Proof.
  intros Hm Hf w Hw. destruct (Hm w Hw) as [l1 [E1 L1]].
  unfold bind. rewrite E1.
  destruct (Hf (set_log w (log w ++ l1)) Hw) as [l2 [E2 L2]]. rewrite E2.
  exists (l1 ++ l2). split.
  - unfold set_log. cbn. now rewrite app_assoc.
  - rewrite writes_app, length_app. lia.
Qed.

Lemma ok_for_each {A} (P : A -> Prop) (f : A -> M unit) (l : list A) :
  Forall P l -> (forall x, P x -> OkCount (f x) 1) ->
  OkCount (for_each f l) (List.length l).
Proof.
  intros Hl Hf. induction Hl as [|x t Hx Ht IH]; [exact ok_ret|].
  exact (ok_bind _ _ 1 _ (Hf x Hx) IH).
Qed.

Lemma ok_set_voltage_clamped (fr : Q -> pystr) (k : korad) (ch : Z) (v : pynum) :
  clamp k = true -> OkCount (set_voltage fr k ch v) 1.
Proof.
  intros Hc w Hw. unfold set_voltage. rewrite Hc.
  destruct (Qlt_bool (num_val v) 0); [|destruct (Qlt_bool _ _)];
    exact (ok_send_cmd _ _ w Hw).
Qed.

Lemma ok_set_current_clamped (fr : Q -> pystr) (k : korad) (ch : Z) (v : pynum) :
  clamp k = true -> OkCount (set_current fr k ch v) 1.
Proof.
  intros Hc w Hw. unfold set_current. rewrite Hc.
  destruct (Qlt_bool (num_val v) 0); [|destruct (Qlt_bool _ _)];
    exact (ok_send_cmd _ _ w Hw).
Qed.

Lemma ok_if_for_each {A} (P : A -> Prop) (f : A -> M unit) (o : option (list A)) :
  (forall x, P x -> OkCount (f x) 1) ->
  Forall P (match o with Some l => l | None => [] end) ->
  OkCount (if truthy_list o then for_each f (match o with Some l => l | None => [] end)
           else ret tt)
          (List.length (match o with Some l => l | None => [] end)).
Proof.
  intros Hf Hl. destruct o as [[|x t]|]; try exact ok_ret.
  exact (ok_for_each P f _ Hl Hf).
Qed.

(** X5: with clamping on, [configure] on an open port never raises:
    whatever the set-points, it writes exactly one command for the output
    switch, one for OCP and one per voltage and per current setting, and
    leaves the port open with nothing read. *)
Theorem configure_clamped_total (fr : Q -> pystr) (k : korad) (p : config) (w : world) :
  clamp k = true -> port_open w = true ->
  exists l, configure fr k p w = (inr tt, set_log w (log w ++ l)) /\
            List.length (writes l) =
              (2 + List.length (match cfg_voltage p with Some l => l | None => [] end)
                 + List.length (match cfg_current p with Some l => l | None => [] end))%nat.
Proof.
  intros Hc Hw.
  assert (H : OkCount (configure fr k p)
                (1 + (1 + (List.length (match cfg_voltage p with Some l => l | None => [] end)
                         + List.length (match cfg_current p with Some l => l | None => [] end))))).
  { unfold configure.
    apply ok_bind; [apply ok_send_cmd|].
    apply ok_bind; [apply ok_send_cmd|].
    apply ok_bind.
    - apply (ok_if_for_each (fun _ => True)).
      + intros x _. now apply ok_set_voltage_clamped.
      + apply Forall_forall. auto.
    - apply (ok_if_for_each (fun _ => True)).
      + intros x _. now apply ok_set_current_clamped.
      + apply Forall_forall. auto. }
  destruct (H w Hw) as [l [E L]]. exists l. split; [exact E | rewrite L; lia].
Qed.

(** [m] succeeds on any open port, touches nothing but the log, and
    writes exactly [bs]. *)
Definition OkWrites (m : M unit) (bs : list bytes) : Prop :=
  forall w, port_open w = true ->
  exists l, m w = (inr tt, set_log w (log w ++ l)) /\ writes l = bs.

(** [m] raises [e] on any open port, after touching nothing but the log
    and writing exactly [bs]. *)
Definition FailsWrites (m : M unit) (e : exn) (bs : list bytes) : Prop :=
  forall w, port_open w = true ->
  exists l, m w = (inl e, set_log w (log w ++ l)) /\ writes l = bs.

Lemma okw_ret : OkWrites (ret tt) [].
Proof. intros w _. exists []. now rewrite set_log_nil. Qed.

Lemma okw_send_cmd (t : Q) (b : bytes) : OkWrites (send_cmd t b) [b].
Proof.
  intros w Hw. unfold send_cmd, bind, port_write, sleep. rewrite Hw.
  exists [EWrite b; ESleep t]. split; [|reflexivity].
  unfold emit, set_log. cbn. now rewrite <- app_assoc.
Qed.

Lemma okw_bind (m : M unit) (f : unit -> M unit) (b1 b2 : list bytes) :
  OkWrites m b1 -> OkWrites (f tt) b2 -> OkWrites (bind m f) (b1 ++ b2).
Proof.
  intros Hm Hf w Hw. destruct (Hm w Hw) as [l1 [E1 L1]].
  unfold bind. rewrite E1.
  destruct (Hf (set_log w (log w ++ l1)) Hw) as [l2 [E2 L2]]. rewrite E2.
  exists (l1 ++ l2). split.
  - unfold set_log. cbn. now rewrite app_assoc.
  - now rewrite writes_app, L1, L2.
Qed.

Lemma okw_for_each {A} (P : A -> Prop) (f : A -> M unit) (g : A -> bytes) (l : list A) :
  Forall P l -> (forall x, P x -> OkWrites (f x) [g x]) ->
  OkWrites (for_each f l) (map g l).
Proof.
  intros Hl Hf. induction Hl as [|x t Hx Ht IH]; [exact okw_ret|].
  exact (okw_bind _ _ [g x] _ (Hf x Hx) IH).
Qed.

Lemma failsw_ext (m m' : M unit) (e : exn) (bs : list bytes) :
  (forall w, m w = m' w) -> FailsWrites m' e bs -> FailsWrites m e bs.
Proof. intros E H w Hw. rewrite E. exact (H w Hw). Qed.

Lemma failsw_bind_ok (m : M unit) (f : unit -> M unit) (e : exn) (b1 b2 : list bytes) :
  OkWrites m b1 -> FailsWrites (f tt) e b2 -> FailsWrites (bind m f) e (b1 ++ b2).
Proof.
  intros Hm Hf w Hw. destruct (Hm w Hw) as [l1 [E1 L1]].
  unfold bind. rewrite E1.
  destruct (Hf (set_log w (log w ++ l1)) Hw) as [l2 [E2 L2]]. rewrite E2.
  exists (l1 ++ l2). split.
  - unfold set_log. cbn. now rewrite app_assoc.
  - now rewrite writes_app, L1, L2.
Qed.

Lemma failsw_bind_fail (m : M unit) (f : unit -> M unit) (e : exn) (bs : list bytes) :
  FailsWrites m e bs -> FailsWrites (bind m f) e bs.
Proof.
  intros Hm w Hw. destruct (Hm w Hw) as [l [E L]].
  exists l. unfold bind. now rewrite E.
Qed.

Lemma okw_set_voltage_in_range (fr : Q -> pystr) (k : korad) (ch : Z) (v : pynum) :
  (num_val v <= inject_Z (max_voltage k))%Q ->
  OkWrites (set_voltage fr k ch v)
    [KORAD_VSET_CMD fr ch (if Qlt_bool (num_val v) 0 then PInt 0 else v)].
Proof.
  intros Hv w Hw. unfold set_voltage.
  rewrite (Qlt_bool_false _ _ Hv).
  destruct (Qlt_bool (num_val v) 0); exact (okw_send_cmd _ _ w Hw).
Qed.

Lemma failsw_set_voltage_over (fr : Q -> pystr) (k : korad) (ch : Z) (v : pynum) :
  clamp k = false -> 0 <= max_voltage k -> (inject_Z (max_voltage k) < num_val v)%Q ->
  FailsWrites (set_voltage fr k ch v) TypeError [].
Proof.
  intros Hc Hm Hv w Hw. exists []. split; [|reflexivity].
  rewrite set_log_nil. unfold set_voltage.
  rewrite (max_nonneg_not_neg _ _ Hv Hm), (Qlt_bool_true _ _ Hv), Hc.
  reflexivity.
Qed.

(** X6: with clamping off, the first voltage setting above the maximum
    makes [configure] raise [TypeError] (the [%] slip of line 120).  The
    commands written are exactly, in order: the output switch, the OCP
    switch, and one [VSET] per voltage setting before the offending one,
    each with its own value (a negative one as 0).  The offending voltage
    setting, the ones after it and every current setting are never
    written. *)
Theorem configure_unclamped_stops_at_bad_voltage (fr : Q -> pystr) (k : korad) (p : config)
    (l1 : list (Z * pynum)) (ch : Z) (v : pynum) (l2 : list (Z * pynum)) (w : world) :
  clamp k = false -> port_open w = true -> 0 <= max_voltage k ->
  cfg_voltage p = Some (l1 ++ (ch, v) :: l2) ->
  Forall (fun e => (num_val (snd e) <= inject_Z (max_voltage k))%Q) l1 ->
  (inject_Z (max_voltage k) < num_val v)%Q ->
  exists l, configure fr k p w = (inl TypeError, set_log w (log w ++ l)) /\
    writes l =
      [KORAD_OUTPUT_CMD (if match cfg_output p with Some b => b | None => false end then 1 else 0);
       KORAD_OCP_CMD (if match cfg_ocp p with Some b => b | None => false end then 1 else 0)]
      ++ map (fun e => KORAD_VSET_CMD fr (fst e)
                         (if Qlt_bool (num_val (snd e)) 0 then PInt 0 else snd e)) l1.
Proof.
  intros Hc Hw Hm Hp Hl1 Hv.
  assert (H : FailsWrites (configure fr k p) TypeError
    ([KORAD_OUTPUT_CMD (if match cfg_output p with Some b => b | None => false end then 1 else 0)]
     ++ ([KORAD_OCP_CMD (if match cfg_ocp p with Some b => b | None => false end then 1 else 0)]
     ++ (map (fun e => KORAD_VSET_CMD fr (fst e)
                         (if Qlt_bool (num_val (snd e)) 0 then PInt 0 else snd e)) l1
     ++ [])))).
  { unfold configure. rewrite Hp.
    assert (Ht : truthy_list (Some (l1 ++ (ch, v) :: l2)) = true) by (destruct l1; reflexivity).
    rewrite Ht.
    apply failsw_bind_ok; [apply okw_send_cmd|].
    apply failsw_bind_ok; [apply okw_send_cmd|].
    apply failsw_bind_fail.
    apply (failsw_ext _ _ _ _ (for_each_app _ l1 ((ch, v) :: l2))).
    apply failsw_bind_ok.
    - apply (okw_for_each _ _ _ l1 Hl1).
      intros [c x] Hx. exact (okw_set_voltage_in_range fr k c x Hx).
    - apply failsw_bind_fail. exact (failsw_set_voltage_over fr k ch v Hc Hm Hv). }
  destruct (H w Hw) as [l [E L]]. exists l. split; [exact E|].
  rewrite L, app_nil_r. reflexivity.
Qed.

(** ** The one-shot functions *)

(** The state [with_serial] hands its body: the port just opened. *)
Definition opened (w : world) : world :=
  {| dev_present := true; port_open := true; port_timeout := KORAD_MAX_TIMEOUT;
     rx := rx w; log := log w ++ [EOpen KORAD_MAX_TIMEOUT] |}.

Lemma with_serial_eq {A} (body : M A) (w : world) :
  with_serial body w =
  if dev_present w then
    let (r, w1) := body (opened w) in let (_, w2) := port_close w1 in (r, w2)
  else (inl SerialException, w).
Proof. unfold with_serial, bind, serial_for_url, opened. now destruct (dev_present w). Qed.

(** [m] leaves the port open and the device present, keeps the timeout,
    and adds at most one read to the log. *)
Definition AtMostOneRead {A} (m : M A) : Prop :=
  forall w, port_open w = true ->
  exists r w1, m w = (r, w1) /\ port_open w1 = true /\ dev_present w1 = dev_present w /\
    port_timeout w1 = port_timeout w /\
    exists l, log w1 = log w ++ l /\ (l = [] \/ exists x, l = [ERead x]).

(** [m] changes nothing. *)
Definition Pure {A} (m : M A) : Prop := forall w, snd (m w) = w.

Lemma pure_ret {A} (a : A) : Pure (ret a).
Proof. intros w. reflexivity. Qed.

Lemma pure_lift {A} (r : exn + A) : Pure (lift r).
Proof. intros w. reflexivity. Qed.

Lemma pure_lift_opt {A} (e : exn) (o : option A) : Pure (lift_opt e o).
Proof. intros w. destruct o; reflexivity. Qed.

Lemma pure_bind {A B} (m : M A) (f : A -> M B) :
  Pure m -> (forall a, Pure (f a)) -> Pure (bind m f).
Proof.
  intros Hm Hf w. unfold bind. specialize (Hm w).
  destruct (m w) as [[e|a] w1]; cbn in *; subst; [reflexivity | apply Hf].
Qed.

Lemma one_read_ret {A} (a : A) : AtMostOneRead (ret a).
Proof.
  intros w Hw. exists (inr a), w. repeat split; auto.
  exists []. split; [now rewrite app_nil_r | now left].
Qed.

Lemma one_read_port_readline : AtMostOneRead port_readline.
Proof.
  intros w Hw. unfold port_readline. rewrite Hw.
  destruct (rx w) as [|x rest]; eexists _, _; (split; [reflexivity|]);
    cbn; repeat split; auto.
  - exists [ERead []]. split; [reflexivity | right; eauto].
  - exists [ERead x]. split; [reflexivity | right; eauto].
Qed.

Lemma one_read_bind_pure {A B} (m : M A) (f : A -> M B) :
  AtMostOneRead m -> (forall a, Pure (f a)) -> AtMostOneRead (bind m f).
Proof.
  intros Hm Hf w Hw. destruct (Hm w Hw) as [r [w1 [E H1]]].
  unfold bind. rewrite E. destruct r as [e|a].
  - exists (inl e), w1. auto.
  - specialize (Hf a w1). destruct (f a w1) as [r2 w2]. cbn in Hf. subst w2.
    exists r2, w1. auto.
Qed.

Lemma one_read_readline_str : AtMostOneRead readline_str.
Proof.
  unfold readline_str. apply one_read_bind_pure; [apply one_read_port_readline|].
  intros a. apply pure_lift_opt.
Qed.

(** The body of a one-shot function: one write, then at most one read. *)
Definition OneShotBody {A} (b : bytes) (body : M A) : Prop :=
  forall w, port_open w = true ->
  exists r w1, body w = (r, w1) /\ port_open w1 = true /\ dev_present w1 = dev_present w /\
    port_timeout w1 = port_timeout w /\
    exists l, log w1 = log w ++ EWrite b :: l /\ (l = [] \/ exists x, l = [ERead x]).

Lemma one_shot_write (b : bytes) : OneShotBody b (port_write b).
Proof.
  intros w Hw. unfold port_write. rewrite Hw. eexists _, _. split; [reflexivity|].
  cbn. repeat split; auto. exists []. split; [reflexivity | now left].
Qed.

Lemma one_shot_write_then {A} (b : bytes) (g : M A) :
  AtMostOneRead g -> OneShotBody b (port_write b ;; g).
Proof.
  intros Hg w Hw. unfold bind at 1, port_write. rewrite Hw.
  destruct (Hg (emit w (EWrite b)) Hw) as [r [w1 [E [O [D [T [l [L Hl]]]]]]]].
  rewrite E. exists r, w1. repeat split; auto.
  exists l. split; [|exact Hl]. rewrite L. cbn. now rewrite <- app_assoc.
Qed.

Lemma with_serial_one_shot {A} (b : bytes) (body : M A) (w : world) :
  OneShotBody b body -> dev_present w = true ->
  exists r w', with_serial body w = (r, w') /\ port_open w' = false /\
    exists l, log w' = log w ++ EOpen KORAD_MAX_TIMEOUT :: EWrite b :: l ++ [EClose] /\
              (l = [] \/ exists x, l = [ERead x]).
Proof.
  intros Hb Hd. rewrite with_serial_eq, Hd.
  destruct (Hb (opened w) eq_refl) as [r [w1 [E [O [_ [_ [l [L Hl]]]]]]]].
  rewrite E. unfold port_close. rewrite O.
  exists r. eexists. split; [reflexivity|]. split; [reflexivity|].
  exists l. split; [|exact Hl]. cbn. rewrite L. cbn.
  rewrite <- !app_assoc. reflexivity.
Qed.

Lemma ignore_eq {A} (m : M A) (w : world) :
  ignore m w = (match fst (m w) with inl e => inl e | inr _ => inr tt end, snd (m w)).
Proof. unfold ignore, bind, ret. now destruct (m w) as [[e|a] w1]. Qed.

(** X7: every one-shot function of the interface, when the device is
    there, opens the port with the 100 ms timeout, writes exactly one
    command, reads at most one line, and closes the port again, also when
    it raises ([korad_status] on a bad reply): no settle delay, no second
    command, and the port never stays open. *)
Theorem one_shot_port_discipline (fr : Q -> pystr) (a : pystr) (f : fcall) (w : world) :
  dev_present w = true ->
  exists r w' b l, run_fcall fr a f w = (r, w') /\ port_open w' = false /\
    log w' = log w ++ EOpen KORAD_MAX_TIMEOUT :: EWrite b :: l ++ [EClose] /\
    (l = [] \/ exists x, l = [ERead x]).
Proof.
  intros Hd.
  assert (H : forall A b (body : M A), OneShotBody b body ->
            exists r w' l, with_serial body w = (r, w') /\ port_open w' = false /\
              log w' = log w ++ EOpen KORAD_MAX_TIMEOUT :: EWrite b :: l ++ [EClose] /\
              (l = [] \/ exists x, l = [ERead x])).
  { intros A b body Hb.
    destruct (with_serial_one_shot b body w Hb Hd) as [r [w' [E [O [l [L Hl]]]]]].
    exists r, w', l. auto. }
  assert (H' : forall b (body : M unit), OneShotBody b body ->
            exists r w' b' l, with_serial body w = (r, w') /\ port_open w' = false /\
              log w' = log w ++ EOpen KORAD_MAX_TIMEOUT :: EWrite b' :: l ++ [EClose] /\
              (l = [] \/ exists x, l = [ERead x])).
  { intros b body Hb. destruct (H _ b body Hb) as [r [w' [l HH]]]. exists r, w', b, l. exact HH. }
  destruct f; cbn [run_fcall];
    unfold korad_set_voltage, korad_set_current, korad_get_desired_voltage,
      korad_get_desired_current, korad_get_actual_voltage, korad_get_actual_current,
      korad_set_output, korad_set_ocp, korad_status, korad_save_settings,
      korad_load_settings;
    try (eapply H'; apply one_shot_write; fail).
  - rewrite ignore_eq. unfold korad_identify.
    destruct (H _ _ _ (one_shot_write_then KORAD_ID_CMD _ one_read_readline_str))
      as [r [w' [l [E HH]]]].
    rewrite E. eexists _, w', _, l. split; [reflexivity | exact HH].
  - eapply H'. apply one_shot_write_then, one_read_bind_pure; [apply one_read_readline_str|].
    intros s. apply pure_bind; [apply pure_lift | intros _; apply pure_ret].
Qed.

(** X8: without the device, every one-shot function raises pyserial's
    [SerialException] from the [Serial] constructor and nothing happens:
    nothing is opened, written, read or closed. *)
Theorem one_shot_no_device (fr : Q -> pystr) (a : pystr) (f : fcall) (w : world) :
  dev_present w = false -> run_fcall fr a f w = (inl SerialException, w).
Proof.
  intros Hd.
  destruct f; cbn [run_fcall];
    unfold korad_set_voltage, korad_set_current, korad_get_desired_voltage,
      korad_get_desired_current, korad_get_actual_voltage, korad_get_actual_current,
      korad_set_output, korad_set_ocp, korad_status, korad_save_settings,
      korad_load_settings;
    rewrite ?ignore_eq; unfold korad_identify; rewrite with_serial_eq, Hd; reflexivity.
Qed.

Lemma with_serial_write (b : bytes) (w : world) :
  dev_present w = true ->
  with_serial (port_write b) w =
  (inr tt, {| dev_present := true; port_open := false; port_timeout := KORAD_MAX_TIMEOUT;
              rx := rx w; log := log w ++ [EOpen KORAD_MAX_TIMEOUT; EWrite b; EClose] |}).
Proof. intros Hd. rewrite with_serial_eq, Hd. cbn. now rewrite <- !app_assoc. Qed.

(** X9: the one-shot set-point functions send the value as given: no
    bound check, no clamping (the [clamp] argument of
    [korad_set_current] is never used) and no settle delay; they return
    [None]. *)
Theorem one_shot_set_points_unchecked (fr : Q -> pystr) (a : pystr) (ch : Z) (v : pynum)
    (c : bool) (w : world) :
  dev_present w = true ->
  let w' b := {| dev_present := true; port_open := false; port_timeout := KORAD_MAX_TIMEOUT;
                 rx := rx w; log := log w ++ [EOpen KORAD_MAX_TIMEOUT; EWrite b; EClose] |} in
  korad_set_voltage fr a ch v w = (inr tt, w' (KORAD_VSET_CMD fr ch v)) /\
  korad_set_current fr a ch v c w = (inr tt, w' (KORAD_ISET_CMD fr ch v)).
Proof.
  intros Hd w'. unfold korad_set_voltage, korad_set_current.
  split; apply with_serial_write, Hd.
Qed.

(** X10: the one-shot getters send their query and return [None]
    without reading: the device's reply is left unread ([rx] unchanged)
    and the port closed. *)
Theorem one_shot_getters_discard_reply (a : pystr) (ch : Z) (w : world) :
  dev_present w = true ->
  let w' b := {| dev_present := true; port_open := false; port_timeout := KORAD_MAX_TIMEOUT;
                 rx := rx w; log := log w ++ [EOpen KORAD_MAX_TIMEOUT; EWrite b; EClose] |} in
  korad_get_desired_voltage a ch w = (inr tt, w' (KORAD_VREAD_CMD ch)) /\
  korad_get_desired_current a ch w = (inr tt, w' (KORAD_IREAD_CMD ch)) /\
  korad_get_actual_voltage a ch w = (inr tt, w' (KORAD_VMEAS_CMD ch)) /\
  korad_get_actual_current a ch w = (inr tt, w' (KORAD_IMEAS_CMD ch)).
Proof.
  intros Hd w'.
  unfold korad_get_desired_voltage, korad_get_desired_current, korad_get_actual_voltage,
    korad_get_actual_current.
  repeat split; apply with_serial_write, Hd.
Qed.

(** X11: [korad_status] returns [None] exactly when the first reply,
    stripped and decoded, is a single character; otherwise it raises.  It
    never returns the status it decodes. *)
Theorem korad_status_succeeds_iff (a : pystr) (w : world) :
  dev_present w = true ->
  (fst (korad_status a w) = inr tt <->
   exists c, utf8_decode (rstrip (hd [] (rx w))) = Some [c]).
Proof.
  intros Hd. unfold korad_status. rewrite with_serial_eq, Hd.
  unfold bind at 1, port_write. cbn [opened port_open].
  unfold readline_str, bind, port_readline, emit, set_log. cbn -[utf8_decode rstrip].
  destruct (rx w) as [|x rest]; cbn -[utf8_decode rstrip];
    destruct (utf8_decode (rstrip _)) as [s|]; cbn -[utf8_decode rstrip];
    try (split; [discriminate | intros [c Hc]; discriminate]).
  all: destruct s as [|c [|c' t]]; cbn;
     [split; [discriminate | intros [c Hc]; discriminate]
     |split; [intros _; exists c; reflexivity | reflexivity]
     |split; [discriminate | intros [c0 Hc]; discriminate]].
Qed.

(** X12: on a silent device (the read times out with [b'']),
    [korad_identify] returns the empty string while [korad_status]
    raises [TypeError] ([ord('')]); both close the port. *)
Theorem silent_device_one_shots (a : pystr) (w : world) :
  dev_present w = true -> rx w = [] ->
  fst (korad_identify a w) = inr [] /\ port_open (snd (korad_identify a w)) = false /\
  fst (korad_status a w) = inl TypeError /\ port_open (snd (korad_status a w)) = false.
Proof.
  intros Hd Hr. unfold korad_identify, korad_status. rewrite !with_serial_eq, Hd.
  unfold bind, port_write, readline_str, port_readline, emit, set_log. cbn.
  rewrite Hr. cbn. repeat split; reflexivity.
Qed.

(** X13: the [clamp] flag of a handle only matters for a set-point
    above the maximum: at or below it [set_voltage] and [set_current] do
    the same thing with clamping on or off.  A negative set-point is sent
    as 0 either way: the call is exactly [send_cmd] of [VSET]/[ISET] with
    the integer 0. *)
Theorem clamp_irrelevant_below_max (fr : Q -> pystr) (k : korad) (c : bool) (ch : Z)
    (v : pynum) (w : world) :
  ((num_val v <= inject_Z (max_voltage k))%Q ->
     set_voltage fr k ch v w = set_voltage fr (with_clamp k c) ch v w) /\
  ((num_val v <= inject_Z (max_current k))%Q ->
     set_current fr k ch v w = set_current fr (with_clamp k c) ch v w) /\
  ((num_val v < 0)%Q ->
     set_voltage fr (with_clamp k c) ch v w =
       send_cmd (timeout k) (KORAD_VSET_CMD fr ch (PInt 0)) w /\
     set_current fr (with_clamp k c) ch v w =
       send_cmd (timeout k) (KORAD_ISET_CMD fr ch (PInt 0)) w).
Proof.
  split; [|split]; intros Hv; unfold set_voltage, set_current;
    cbn [with_clamp max_voltage max_current timeout].
  - rewrite (Qlt_bool_false _ _ Hv); reflexivity.
  - rewrite (Qlt_bool_false _ _ Hv); reflexivity.
  - rewrite (Qlt_bool_true _ _ Hv). split; reflexivity.
Qed.

(** ** Witnesses of the further properties *)

Lemma closed_port_operations_witness :
  port_open (device_with []) = false /\ OStatus <> OClose /\
  run_op repr_example (k_test true) OStatus (device_with []) =
    (inl SerialException, device_with []) /\
  run_op repr_example (k_test false) (OSetVoltage 1 (PInt 31)) (device_with []) =
    (inl TypeError, device_with []).
Proof.
  split; [reflexivity|]. split; [discriminate|]. split.
  - exact (closed_port_operations repr_example (k_test true) OStatus (device_with [])
             eq_refl (fun H => match H in _ = o return (match o with OClose => False | _ => True end)
                               with eq_refl => I end)).
  - exact (closed_port_operations repr_example (k_test false) (OSetVoltage 1 (PInt 31))
             (device_with []) eq_refl
             (fun H => match H in _ = o return (match o with OClose => False | _ => True end)
                       with eq_refl => I end)).
Defined.

Lemma configure_clamped_total_witness :
  clamp (k_test true) = true /\ port_open (port_with []) = true /\
  exists l, configure repr_example (k_test true) (cfg_example [(1, PInt 40)] [(1, PInt (-2))])
              (port_with []) = (inr tt, set_log (port_with []) (log (port_with []) ++ l)) /\
            List.length (writes l) = 4%nat.
Proof.
  split; [reflexivity|]. split; [reflexivity|].
  exact (configure_clamped_total repr_example (k_test true)
           (cfg_example [(1, PInt 40)] [(1, PInt (-2))]) (port_with []) eq_refl eq_refl).
Defined.

Lemma configure_unclamped_stops_at_bad_voltage_witness :
  clamp (k_test false) = false /\ 0 <= max_voltage (k_test false) /\
  (inject_Z (max_voltage (k_test false)) < num_val (PInt 31))%Q /\
  exists l, configure repr_example (k_test false)
              (cfg_example ([(1, PInt 12); (2, PInt (-3))] ++ (1, PInt 31) :: [(1, PInt 5)])
                           [(1, PInt 1)])
              (port_with []) = (inl TypeError, set_log (port_with []) (log (port_with []) ++ l)) /\
            writes l = [KORAD_OUTPUT_CMD 1; KORAD_OCP_CMD 0;
                        KORAD_VSET_CMD repr_example 1 (PInt 12);
                        KORAD_VSET_CMD repr_example 2 (PInt 0)].
Proof.
  split; [reflexivity|]. split; [cbn; lia|]. split; [reflexivity|].
  apply (configure_unclamped_stops_at_bad_voltage repr_example (k_test false)
           (cfg_example ([(1, PInt 12); (2, PInt (-3))] ++ (1, PInt 31) :: [(1, PInt 5)])
                        [(1, PInt 1)])
           [(1, PInt 12); (2, PInt (-3))] 1 (PInt 31) [(1, PInt 5)] (port_with []));
    [reflexivity | reflexivity | cbn; lia | reflexivity | | reflexivity].
  constructor; [|constructor; [|constructor]]; apply Qle_bool_iff; reflexivity.
Defined.

Lemma one_shot_port_discipline_witness :
  dev_present (device_with [[97]]) = true /\
  exists r w' b l, run_fcall repr_example (lit "COM4") FStatus (device_with [[97]]) = (r, w') /\
    port_open w' = false /\
    log w' = log (device_with [[97]]) ++ EOpen KORAD_MAX_TIMEOUT :: EWrite b :: l ++ [EClose] /\
    (l = [] \/ exists x, l = [ERead x]).
Proof.
  split; [reflexivity|].
  exact (one_shot_port_discipline repr_example (lit "COM4") FStatus (device_with [[97]]) eq_refl).
Defined.

Lemma one_shot_no_device_witness :
  dev_present no_device = false /\
  run_fcall repr_example (lit "COM4") FIdentify no_device = (inl SerialException, no_device).
Proof.
  split; [reflexivity|].
  exact (one_shot_no_device repr_example (lit "COM4") FIdentify no_device eq_refl).
Defined.

Lemma one_shot_set_points_unchecked_witness :
  dev_present (device_with []) = true /\
  korad_set_current repr_example (lit "COM4") 1 (PInt 99) true (device_with []) =
  (inr tt, {| dev_present := true; port_open := false; port_timeout := KORAD_MAX_TIMEOUT;
              rx := []; log := [EOpen KORAD_MAX_TIMEOUT;
                                EWrite (KORAD_ISET_CMD repr_example 1 (PInt 99)); EClose] |}).
Proof.
  split; [reflexivity|].
  exact (proj2 (one_shot_set_points_unchecked repr_example (lit "COM4") 1 (PInt 99) true
                  (device_with []) eq_refl)).
Defined.

Lemma one_shot_getters_discard_reply_witness :
  dev_present (device_with [lit "5.00"]) = true /\
  korad_get_actual_voltage (lit "COM4") 1 (device_with [lit "5.00"]) =
  (inr tt, {| dev_present := true; port_open := false; port_timeout := KORAD_MAX_TIMEOUT;
              rx := [lit "5.00"];
              log := [EOpen KORAD_MAX_TIMEOUT; EWrite (KORAD_VMEAS_CMD 1); EClose] |}).
Proof.
  split; [reflexivity|].
  exact (proj1 (proj2 (proj2 (one_shot_getters_discard_reply (lit "COM4") 1
                                (device_with [lit "5.00"]) eq_refl)))).
Defined.

Lemma korad_status_succeeds_iff_witness :
  dev_present (device_with [[97; 10]]) = true /\
  (fst (korad_status (lit "COM4") (device_with [[97; 10]])) = inr tt <->
   exists c, utf8_decode (rstrip (hd [] (rx (device_with [[97; 10]])))) = Some [c]).
Proof.
  split; [reflexivity|].
  exact (korad_status_succeeds_iff (lit "COM4") (device_with [[97; 10]]) eq_refl).
Defined.

Lemma silent_device_one_shots_witness :
  dev_present (device_with []) = true /\ rx (device_with []) = [] /\
  fst (korad_identify (lit "COM4") (device_with [])) = inr [] /\
  port_open (snd (korad_identify (lit "COM4") (device_with []))) = false /\
  fst (korad_status (lit "COM4") (device_with [])) = inl TypeError /\
  port_open (snd (korad_status (lit "COM4") (device_with []))) = false.
Proof.
  split; [reflexivity|]. split; [reflexivity|].
  exact (silent_device_one_shots (lit "COM4") (device_with []) eq_refl eq_refl).
Defined.

Lemma clamp_irrelevant_below_max_witness :
  (num_val (PInt (-3)) <= inject_Z (max_voltage (k_test false)))%Q /\
  set_voltage repr_example (k_test false) 1 (PInt (-3)) (port_with []) =
  set_voltage repr_example (with_clamp (k_test false) true) 1 (PInt (-3)) (port_with []) /\
  (num_val (PInt (-3)) < 0)%Q /\
  set_current repr_example (with_clamp (k_test false) false) 1 (PInt (-3)) (port_with []) =
  send_cmd (timeout (k_test false)) (KORAD_ISET_CMD repr_example 1 (PInt 0)) (port_with []).
Proof.
  split; [apply Qle_bool_iff; reflexivity|]. split.
  - apply (proj1 (clamp_irrelevant_below_max repr_example (k_test false) true 1 (PInt (-3))
                    (port_with []))).
    apply Qle_bool_iff. reflexivity.
  - split; [reflexivity|].
    apply (proj2 (proj2 (proj2 (clamp_irrelevant_below_max repr_example (k_test false) false
                                  1 (PInt (-3)) (port_with []))) eq_refl)).
Defined.
